(** * Sale commit of the point-of-sale application (pos.py)

    A shallow embedding of the sale path of pos.py:
    - the money calculator, [ModernPOSApp.parse_discount] and
      [ModernPOSApp.update_totals], on IEEE binary64 numbers, which is what
      Python's [float] is;
    - the transaction, [DataManager.save_sale], on an explicit database state;
    - its callers, [ModernPOSApp.checkout], [ModernPOSApp.process_payment],
      [ModernPOSApp.complete_sale] and the payment dialog;
    - what fills the cart, [ModernPOSApp.add_to_cart], [edit_cart_item],
      [remove_cart_item], [clear_cart], the quantity dialog and the cart
      window, and what else writes the stock, [StockUpdateDialog];
    - what reads a sale back, [DataManager.get_sale_details], and the
      settings table with [DatabaseManager.init_db] and
      [ModernPOSApp.load_settings].

    Python exceptions are error values, the SQLite file is a record of tables,
    the clock and the random generator are an explicit [World].  The modules
    carry the names of the classes of pos.py. *)

From Stdlib Require Import ZArith Zpower Bool Lia Ascii String.
From Stdlib Require Import Floats.SpecFloat.
From Stdlib Require Import DecimalString.
From Stdlib Require DecimalN DecimalPos.
From stdpp Require Import gmap strings list fin_maps.

Local Open Scope Z_scope.

(** ** Binary64 arithmetic

    Python floats are binary64: 53 bits of precision, round to nearest even.
    The operations are those of the Standard Library's executable
    specification of IEEE arithmetic, so that every amount below is computed
    bit for bit as CPython computes it. *)
Module Float64.

Definition prec : Z := 53.
Definition emax : Z := 1024.

Definition float : Type := spec_float.

Definition add : float -> float -> float := SFadd prec emax.
Definition sub : float -> float -> float := SFsub prec emax.
Definition mul : float -> float -> float := SFmul prec emax.
Definition div : float -> float -> float := SFdiv prec emax.

(** [x < y]; false as soon as one side is a NaN. *)
Definition ltb : float -> float -> bool := SFltb.

(** [x <= y], with the same proviso. *)
Definition leb : float -> float -> bool := SFleb.

(** [float(n)] for a Python int, as the interpreter does it implicitly in
    [price * qty] and in [percentage / 100]; nearest even beyond 2^53.
    (An int too large for a float raises OverflowError in Python; here it
    is an infinity.) *)
Definition of_Z (n : Z) : float := binary_normalize prec emax n 0 false.

Definition zero : float := S754_zero false.

Definition is_nan (x : float) : bool :=
  match x with S754_nan => true | _ => false end.

(** The representations a binary64 number has: mantissa and exponent in
    canonical form.  Every Python float is one. *)
Definition valid (x : float) : Prop := valid_binary prec emax x = true.

(** The binary64 nearest to [n / d], for [0 <= n] and [0 < d]. *)
Definition of_ratio (neg : bool) (n d : Z) : float :=
  match n with
  | Z0 => S754_zero neg
  | _ =>
      let '(mz, ez, lz) := SFdiv_core_binary prec emax n 0 d 0 in
      binary_round_aux prec emax neg mz ez lz
  end.

(** The binary64 nearest to [n * 10 ^ e10], for [0 <= n]. *)
Definition of_decimal (neg : bool) (n : Z) (e10 : Z) : float :=
  if 0 <=? e10
  then binary_normalize prec emax (if neg then - (n * 10 ^ e10) else n * 10 ^ e10) 0 neg
  else of_ratio neg n (10 ^ (- e10)).

(** *** [format(x, '.2f')]

    CPython prints the exact binary value, correctly rounded to two
    decimals, ties to even. *)
Definition div_half_even (n d : Z) : Z :=
  let q := n / d in
  match (2 * (n mod d)) ?= d with
  | Lt => q
  | Gt => q + 1
  | Eq => if Z.even q then q else q + 1
  end.

(** Hundredths in [m * 2 ^ e], rounded. *)
Definition cents (m : positive) (e : Z) : Z :=
  if 0 <=? e then Z.pos m * 2 ^ e * 100
  else div_half_even (Z.pos m * 100) (2 ^ (- e)).

Definition str_N (n : N) : string := NilZero.string_of_uint (N.to_uint n).

(** [str(n)] for a Python int. *)
Definition str_Z (n : Z) : string :=
  match n with
  | Zneg p => "-" +:+ str_N (Npos p)
  | _ => str_N (Z.to_N n)
  end.

Definition two_digits (n : Z) : string :=
  if n <? 10 then "0" +:+ str_Z n else str_Z n.

Definition format_cents (c : Z) : string :=
  str_Z (c / 100) +:+ "." +:+ two_digits (c mod 100).

Definition sign_str (s : bool) : string := if s then "-" else "".

Definition format_2f (x : float) : string :=
  match x with
  | S754_nan => "nan"
  | S754_infinity s => sign_str s +:+ "inf"
  | S754_zero s => sign_str s +:+ "0.00"
  | S754_finite s m e => sign_str s +:+ format_cents (cents m e)
  end.

(** *** [float(text)]

    The grammar of Python's [float] constructor on ASCII text: white space
    around, a sign, then [inf], [infinity], [nan] in any case or a decimal
    number with an optional fraction and exponent, underscores allowed
    between digits.  [None] is Python's ValueError.  The white space
    [float] takes off an ASCII text is tab to carriage return and the space;
    the separators 28 to 31, which [str.strip] takes off, it does not. *)
Definition is_space (c : ascii) : bool :=
  let n := N_of_ascii c in
  ((9 <=? n) && (n <=? 13) || (n =? 32))%N.

Definition digit_of (c : ascii) : option Z :=
  let n := Z.of_N (N_of_ascii c) in
  if (48 <=? n) && (n <=? 57) then Some (n - 48) else None.

Definition lower (c : ascii) : ascii :=
  let n := N_of_ascii c in
  if ((65 <=? n) && (n <=? 90))%N then ascii_of_N (n + 32) else c.

Fixpoint drop_spaces (l : list ascii) : list ascii :=
  match l with
  | c :: r => if is_space c then drop_spaces r else l
  | [] => []
  end.

Definition strip (l : list ascii) : list ascii :=
  rev (drop_spaces (rev (drop_spaces l))).

(** [digit (["_"] digit)*], after its first digit: the digits read so far as
    a number, how many were read, and the rest of the text. *)
Fixpoint digits_tail (l : list ascii) (acc : Z) (len : Z) : Z * Z * list ascii :=
  match l with
  | c :: r =>
      match digit_of c with
      | Some d => digits_tail r (10 * acc + d) (len + 1)
      | None =>
          if Ascii.eqb c "_"
          then match r with
               | c' :: r' =>
                   match digit_of c' with
                   | Some d => digits_tail r' (10 * acc + d) (len + 1)
                   | None => (acc, len, l)
                   end
               | [] => (acc, len, l)
               end
          else (acc, len, l)
      end
  | [] => (acc, len, l)
  end.

(** A digit part, continuing the number [acc]; [None] when the text does
    not start with a digit. *)
Definition digitpart (l : list ascii) (acc : Z) : option (Z * Z * list ascii) :=
  match l with
  | c :: r =>
      match digit_of c with
      | Some d => Some (digits_tail r (10 * acc + d) 1)
      | None => None
      end
  | [] => None
  end.

Definition read_sign (l : list ascii) : bool * list ascii :=
  match l with
  | c :: r =>
      if Ascii.eqb c "-" then (true, r)
      else if Ascii.eqb c "+" then (false, r)
      else (false, l)
  | [] => (false, l)
  end.

(** [number]: the digits as one integer and the number of fraction digits. *)
Definition read_number (l : list ascii) : option (Z * Z * list ascii) :=
  match digitpart l 0 with
  | Some (n, _, r) =>
      match r with
      | c :: r' =>
          if Ascii.eqb c "."
          then match digitpart r' n with
               | Some res => Some res
               | None => Some (n, 0, r')
               end
          else Some (n, 0, r)
      | [] => Some (n, 0, r)
      end
  | None =>
      match l with
      | c :: r' => if Ascii.eqb c "." then digitpart r' 0 else None
      | [] => None
      end
  end.

(** [exponent], when there is one; the text must end after it. *)
Definition read_exponent (l : list ascii) : option Z :=
  match l with
  | [] => Some 0
  | c :: r =>
      if Ascii.eqb (lower c) "e"
      then let '(neg, r') := read_sign r in
           match digitpart r' 0 with
           | Some (e, _, []) => Some (if neg then - e else e)
           | _ => None
           end
      else None
  end.

Definition float_of_chars (l : list ascii) : option float :=
  let '(neg, body) := read_sign (strip l) in
  let word := string_of_list_ascii (map lower body) in
  if String.eqb word "inf" || String.eqb word "infinity" then Some (S754_infinity neg)
  else if String.eqb word "nan" then Some S754_nan
  else
    match read_number body with
    | Some (n, frac, r) =>
        match read_exponent r with
        | Some e => Some (of_decimal neg n (e - frac))
        | None => None
        end
    | None => None
    end.

Definition float_of_string (s : string) : option float :=
  float_of_chars (list_ascii_of_string s).

(** [round(x, 2)]: CPython rounds through the same correctly rounded
    two-decimal text. *)
Definition round2 (x : float) : option float := float_of_string (format_2f x).

End Float64.

Import Float64.

(** ** The cart

    A cart line is the dict built by [ModernPOSApp.add_to_cart]:
    [{'id', 'name', 'price', 'cost', 'qty'}], name and price being
    snapshots taken when the line was added. *)
Record CartLine := {
  item_id : Z;
  item_name : string;
  item_price : float;
  item_cost : float;
  item_qty : Z
}.

(** ** The database

    The tables [save_sale] reads and writes, with the columns it uses.
    [products] is keyed by its primary key; [sales] and [sale_items] are
    kept in insertion order; the two counters are SQLite's AUTOINCREMENT
    sequences.  Integers are unbounded, as Python's are: an id, a quantity
    or a stock beyond the 64 bits of an SQLite INTEGER, which SQLite would
    refuse to bind or keep as a REAL, is outside the model.  Every product
    has a stock (the column admits NULL), [created_at] is left out. *)
Record ProductRow := {
  p_name : string;
  p_price : float;
  p_stock : Z
}.

Record SaleRow := {
  s_id : Z;
  s_receipt_number : string;
  s_customer_id : option Z;
  s_subtotal : float;
  s_discount : float;
  s_tax : float;
  s_total : float;
  s_paid : float;
  s_change_amount : float;
  s_payment_method : string;
  s_cashier_name : string
}.

Record SaleItemRow := {
  si_id : Z;
  si_sale_id : Z;
  si_product_id : Z;
  si_quantity : Z;
  si_unit_price : float;
  si_total_price : float
}.

Record Database := {
  products : gmap Z ProductRow;
  sales : list SaleRow;
  sale_items : list SaleItemRow;
  sales_seq : Z;
  sale_items_seq : Z
}.

(** The ValueErrors [save_sale] raises. *)
Inductive SaleError :=
| ProductNotFound (name : string)
| NotEnoughStock (name : string) (available requested : Z)
| DatabaseError (message : string).

(** The text of the exception, as the f-strings of [save_sale] build it. *)
Definition error_message (e : SaleError) : string :=
  match e with
  | ProductNotFound name => "Product " +:+ name +:+ " not found"
  | NotEnoughStock name available requested =>
      "Not enough stock for " +:+ name +:+ ". Available: " +:+ str_Z available
      +:+ ", Requested: " +:+ str_Z requested
  | DatabaseError message => "Database error: " +:+ message
  end.

(** The clock and the random generator [save_sale] draws from. *)
Record World := {
  clock : Z;
  random_source : nat -> Z;
  random_used : nat
}.

(** [random.randint(1000, 9999)]: the next draw. *)
Definition randint (w : World) : Z * World :=
  (random_source w (random_used w),
   {| clock := clock w; random_source := random_source w;
      random_used := S (random_used w) |}).

(** [f"R{timestamp}{random_part}"] *)
Definition make_receipt_number (timestamp random_part : Z) : string :=
  "R" +:+ str_Z timestamp +:+ str_Z random_part.

(** ** The settings table

    [settings (key TEXT PRIMARY KEY, value TEXT)] is a map from keys to
    values, [gmap string string]; the application only writes texts into
    it. *)
Module DatabaseManager.

(** [INSERT OR REPLACE INTO settings (key, value) VALUES (?, ?)], the value
    being the text [str(value)] already. *)
Definition set_setting (table : gmap string string) (key value : string) : gmap string string :=
  <[key := value]> table.

(** The dict [default_settings] of [init_db], in the order of its keys. *)
Definition default_settings : list (string * string) :=
  [ ("tax_percent", "0.0"); ("currency_symbol", "PKR");
    ("receipt_footer", "Thank you for your business!");
    ("cashier_name", "Admin"); ("theme", "light") ].

(** What [DatabaseManager.init_db] does to the settings table: the loop
    [for key, value in default_settings.items(): set_setting(key, value)].
    Its other statements create the tables that are missing and the sample
    catalog, and leave this table alone. *)
Definition init_db (table : gmap string string) : gmap string string :=
  foldl (λ t kv, set_setting t kv.1 kv.2) table default_settings.

End DatabaseManager.

(** ** The transaction *)

Module DataManager.

(** The first loop of [save_sale]: every line against the stock read back
    from the products table; the first line that fails raises. *)
Fixpoint check_stock (prods : gmap Z ProductRow) (cart : list CartLine)
    : option SaleError :=
  match cart with
  | [] => None
  | item :: rest =>
      match prods !! item_id item with
      | None => Some (ProductNotFound (item_name item))
      | Some row =>
          if p_stock row <? item_qty item
          then Some (NotEnoughStock (item_name item) (p_stock row) (item_qty item))
          else check_stock prods rest
      end
  end.

Definition receipt_taken (db : Database) (receipt_number : string) : bool :=
  existsb (fun s => String.eqb (s_receipt_number s) receipt_number) (sales db).

(** [INSERT INTO sales ...]; gives the new row's id ([cursor.lastrowid]) or
    the message of the sqlite3.IntegrityError.  SQLite binds a NaN as NULL,
    which the [REAL NOT NULL] columns refuse ([discount] is not one of them:
    a NaN there is stored, as NULL); then the receipt number must be free
    ([receipt_number TEXT UNIQUE]).  The row keeps the amounts as they were
    passed; SQLite gives a -0.0 back as 0.0, which is equal to it. *)
Definition insert_sale (db : Database) (receipt_number : string)
    (customer_id : option Z) (subtotal discount tax total paid change : float)
    (payment_method cashier_name : string) : string + Database * Z :=
  if is_nan subtotal then inl "NOT NULL constraint failed: sales.subtotal"
  else if is_nan tax then inl "NOT NULL constraint failed: sales.tax"
  else if is_nan total then inl "NOT NULL constraint failed: sales.total"
  else if is_nan paid then inl "NOT NULL constraint failed: sales.paid"
  else if is_nan change then inl "NOT NULL constraint failed: sales.change_amount"
  else if receipt_taken db receipt_number
  then inl "UNIQUE constraint failed: sales.receipt_number"
  else
    let sale_id := sales_seq db + 1 in
    let row := {| s_id := sale_id; s_receipt_number := receipt_number;
                  s_customer_id := customer_id; s_subtotal := subtotal;
                  s_discount := discount; s_tax := tax; s_total := total;
                  s_paid := paid; s_change_amount := change;
                  s_payment_method := payment_method;
                  s_cashier_name := cashier_name |} in
    inr ({| products := products db; sales := sales db ++ [row];
            sale_items := sale_items db; sales_seq := sale_id;
            sale_items_seq := sale_items_seq db |}, sale_id).

Definition sale_exists (db : Database) (sale_id : Z) : bool :=
  existsb (fun s => s_id s =? sale_id) (sales db).

(** [INSERT INTO sale_items ...]: refused when a price is a NaN (NULL in a
    [REAL NOT NULL] column) or when a foreign key has no target
    ([PRAGMA foreign_keys = ON]). *)
Definition insert_sale_item (db : Database) (sale_id product_id quantity : Z)
    (unit_price total_price : float) : string + Database :=
  if is_nan unit_price then inl "NOT NULL constraint failed: sale_items.unit_price"
  else if is_nan total_price
  then inl "NOT NULL constraint failed: sale_items.total_price"
  else if sale_exists db sale_id && bool_decide (is_Some (products db !! product_id)) then
    let row := {| si_id := sale_items_seq db + 1; si_sale_id := sale_id;
                  si_product_id := product_id; si_quantity := quantity;
                  si_unit_price := unit_price; si_total_price := total_price |} in
    inr {| products := products db; sales := sales db;
           sale_items := sale_items db ++ [row]; sales_seq := sales_seq db;
           sale_items_seq := sale_items_seq db + 1 |}
  else inl "FOREIGN KEY constraint failed".

Definition decrement (quantity : Z) (row : ProductRow) : ProductRow :=
  {| p_name := p_name row; p_price := p_price row;
     p_stock := p_stock row - quantity |}.

(** [UPDATE products SET stock = stock - ? WHERE id = ?] *)
Definition update_stock (db : Database) (quantity product_id : Z) : Database :=
  {| products := alter (decrement quantity) product_id (products db);
     sales := sales db; sale_items := sale_items db;
     sales_seq := sales_seq db; sale_items_seq := sale_items_seq db |}.

(** The second loop of [save_sale]: one sale_items row and one stock update
    per line. *)
Fixpoint write_items (db : Database) (sale_id : Z) (cart : list CartLine)
    : string + Database :=
  match cart with
  | [] => inr db
  | item :: rest =>
      let total_price := mul (item_price item) (of_Z (item_qty item)) in
      match insert_sale_item db sale_id (item_id item) (item_qty item)
              (item_price item) total_price with
      | inr db' => write_items (update_stock db' (item_qty item) (item_id item)) sale_id rest
      | inl message => inl message
      end
  end.

(** [DataManager.save_sale].  The result is the exception raised or the pair
    [(sale_id, receipt_number)]; the database returned is the one left on
    disk: the connection's [with] block commits when its body ends and rolls
    back when an exception leaves it; a sqlite3.Error is raised again as
    ValueError("Database error: ...").  The connection is taken to open. *)
Definition save_sale (w : World) (db : Database) (cart : list CartLine)
    (subtotal discount tax total paid : float)
    (payment_method cashier_name : string) (customer_id : option Z)
    : (SaleError + Z * string) * Database * World :=
  let timestamp := clock w in
  let '(random_part, w') := randint w in
  let receipt_number := make_receipt_number timestamp random_part in
  let change := sub paid total in
  match check_stock (products db) cart with
  | Some e => (inl e, db, w')
  | None =>
      match insert_sale db receipt_number customer_id subtotal discount tax
              total paid change payment_method cashier_name with
      | inl message => (inl (DatabaseError message), db, w')
      | inr (db1, sale_id) =>
          match write_items db1 sale_id cart with
          | inl message => (inl (DatabaseError message), db, w')
          | inr db2 => (inr (sale_id, receipt_number), db2, w')
          end
      end
  end.

(** [DataManager.get_setting]: [result['value'] if result else None] *)
Definition get_setting (table : gmap string string) (key : string) : option string :=
  table !! key.

(** A row of the second query of [get_sale_details]:
    [SELECT si.*, p.name as product_name]. *)
Record SaleDetailRow := {
  d_item : SaleItemRow;
  d_product_name : string
}.

(** [... FROM sale_items si JOIN products p ON si.product_id = p.id
    WHERE si.sale_id = ?]: the rows of the sale that have their product, in
    the order of the table. *)
Definition sale_detail_rows (db : Database) (sale_id : Z) : list SaleDetailRow :=
  omap (λ si,
          if si_sale_id si =? sale_id
          then (λ p, {| d_item := si; d_product_name := p_name p |})
                 <$> products db !! si_product_id si
          else None)
       (sale_items db).

(** [DataManager.get_sale_details]: the sales row with this id, [None] when
    there is none, and its lines. *)
Definition get_sale_details (db : Database) (sale_id : Z)
    : option SaleRow * list SaleDetailRow :=
  (List.find (λ s, s_id s =? sale_id) (sales db), sale_detail_rows db sale_id).

End DataManager.

Import DataManager.

(** ** Text

    [text.replace(old, '')]: the occurrences of [old] are taken out from the
    left, without overlap; an empty [old] leaves the text as it is. *)
Fixpoint is_prefix (p l : list ascii) : bool :=
  match p, l with
  | [], _ => true
  | c :: p', d :: l' => Ascii.eqb c d && is_prefix p' l'
  | _ :: _, [] => false
  end.

(** [skip] counts the characters still to drop of an occurrence found. *)
Fixpoint remove_from (old : list ascii) (skip : nat) (l : list ascii) : list ascii :=
  match l with
  | [] => []
  | c :: r =>
      match skip with
      | S k => remove_from old k r
      | O =>
          if is_prefix old l then remove_from old (length old - 1) r
          else c :: remove_from old 0 r
      end
  end.

Definition remove_all (old text : string) : string :=
  match old with
  | EmptyString => text
  | _ => string_of_list_ascii
           (remove_from (list_ascii_of_string old) 0 (list_ascii_of_string text))
  end.

(** ** The payment dialog *)

(** What the operator does in the payment dialog. *)
Inductive DialogEvent :=
| PressProcess (paid : float) (payment_method : string)
| PressCancel.

Module EnhancedPaymentDialog.

(** [EnhancedPaymentDialog.process_payment]: the dialog's result after one
    press of "Process Payment"; [None] when it shows "Insufficient Payment"
    and stays open. *)
Definition process_payment (total_amount paid : float)
    (payment_method : string) : option (float * string) :=
  if ltb paid total_amount then None else Some (paid, payment_method).

End EnhancedPaymentDialog.

(** The dialog until it closes: [payment_dialog.result] after
    [wait_window]. *)
Fixpoint payment_dialog (total_amount : float) (events : list DialogEvent)
    : option (float * string) :=
  match events with
  | [] => None
  | PressCancel :: _ => None
  | PressProcess paid payment_method :: rest =>
      match EnhancedPaymentDialog.process_payment total_amount paid payment_method with
      | Some result => Some result
      | None => payment_dialog total_amount rest
      end
  end.

(** ** The quantity dialog *)

(** What the operator does in the quantity dialog: the buttons "-" and "+"
    (or the keys Down and Up), "Save" (or Return), "Remove" with the answer
    to its question, "Cancel" (or Escape). *)
Inductive QuantityEvent :=
| PressMinus
| PressPlus
| PressSave
| PressRemove (confirmed : bool)
| PressCancelEdit.

Module QuantityEditDialog.

(** [QuantityEditDialog.decrease_qty], on the value of [qty_var] *)
Definition decrease_qty (current : Z) : Z :=
  if 1 <? current then current - 1 else current.

(** [QuantityEditDialog.increase_qty] *)
Definition increase_qty (current : Z) : Z := current + 1.

(** [QuantityEditDialog.save_quantity]: the dialog's result; [None] when it
    shows "Invalid Quantity" and stays open. *)
Definition save_quantity (qty : Z) : option Z :=
  if qty <=? 0 then None else Some qty.

End QuantityEditDialog.

(** The dialog until it closes, opened on a line of quantity [qty]:
    [dialog.result] after [wait_window].  A confirmed "Remove" gives 0,
    "Cancel" and closing the window give [None]. *)
Fixpoint quantity_dialog (qty : Z) (events : list QuantityEvent) : option Z :=
  match events with
  | [] => None
  | PressMinus :: rest => quantity_dialog (QuantityEditDialog.decrease_qty qty) rest
  | PressPlus :: rest => quantity_dialog (QuantityEditDialog.increase_qty qty) rest
  | PressSave :: rest =>
      match QuantityEditDialog.save_quantity qty with
      | Some result => Some result
      | None => quantity_dialog qty rest
      end
  | PressRemove true :: _ => Some 0
  | PressRemove false :: rest => quantity_dialog qty rest
  | PressCancelEdit :: _ => None
  end.

(** ** The application

    [ModernPOSApp]: the money calculator first, then the checkout. *)
Module ModernPOSApp.

(** [item['price'] * item['qty']] *)
Definition line_total (item : CartLine) : float :=
  mul (item_price item) (of_Z (item_qty item)).

(** [sum(item['price'] * item['qty'] for item in self.cart)]: the lines are
    added from the left onto the int [0]. *)
Definition cart_subtotal (cart : list CartLine) : float :=
  fold_left (fun acc item => add acc (line_total item)) cart (of_Z 0).

(** [discount_text.endswith('%')] *)
Definition ends_with_percent (text : string) : bool :=
  match rev (list_ascii_of_string text) with
  | c :: _ => Ascii.eqb c "%"
  | [] => false
  end.

(** [discount_text[:-1]] *)
Definition drop_last (text : string) : string :=
  string_of_list_ascii (removelast (list_ascii_of_string text)).

(** [ModernPOSApp.parse_discount] *)
Definition parse_discount (discount_text : string) (subtotal : float) : float :=
  if String.eqb discount_text "" then zero
  else if ends_with_percent discount_text then
    match float_of_string (drop_last discount_text) with
    | Some percentage =>
        if ltb percentage (of_Z 0) || ltb (of_Z 100) percentage then zero
        else mul subtotal (div percentage (of_Z 100))
    | None => zero
    end
  else
    match float_of_string discount_text with
    | Some amount => if ltb amount (of_Z 0) then zero else amount
    | None => zero
    end.

(** The four amounts of [ModernPOSApp.update_totals], before formatting. *)
Record Totals := {
  t_subtotal : float;
  t_discount : float;
  t_tax : float;
  t_total : float
}.

Definition compute_totals (cart : list CartLine) (discount_text : string)
    (tax_percent : float) : Totals :=
  let subtotal := cart_subtotal cart in
  let discount_amount := parse_discount discount_text subtotal in
  let tax_amount := mul (sub subtotal discount_amount) (div tax_percent (of_Z 100)) in
  let total := add (sub subtotal discount_amount) tax_amount in
  {| t_subtotal := subtotal; t_discount := discount_amount;
     t_tax := tax_amount; t_total := total |}.

(** The part of the application's state the sale path touches: the cart,
    the settings and the variables of the totals panel. *)
Record App := {
  cart : list CartLine;
  discount_var : string;
  tax_percent : float;
  currency_symbol : string;
  subtotal_var : string;
  discount_amount_var : string;
  tax_var : string;
  total_var : string;
  cashier_setting : string;
  database : Database;
  world : World
}.

(** [ModernPOSApp.update_totals] *)
Definition update_totals (app : App) : App :=
  let t := compute_totals (cart app) (discount_var app) (tax_percent app) in
  let currency := currency_symbol app in
  {| cart := cart app; discount_var := discount_var app;
     tax_percent := tax_percent app; currency_symbol := currency;
     subtotal_var := currency +:+ format_2f (t_subtotal t);
     discount_amount_var := "-" +:+ currency +:+ format_2f (t_discount t);
     tax_var := currency +:+ format_2f (t_tax t);
     total_var := currency +:+ format_2f (t_total t);
     cashier_setting := cashier_setting app;
     database := database app; world := world app |}.

(** [ModernPOSApp.new_sale]: empties the cart, resets the discount, and
    refreshes the totals through [refresh_cart]. *)
Definition new_sale (app : App) : App :=
  update_totals
    {| cart := []; discount_var := "0"; tax_percent := tax_percent app;
       currency_symbol := currency_symbol app;
       subtotal_var := subtotal_var app;
       discount_amount_var := discount_amount_var app;
       tax_var := tax_var app; total_var := total_var app;
       cashier_setting := cashier_setting app;
       database := database app; world := world app |}.

(** How a checkout ends. *)
Inductive Outcome :=
| CartEmpty
| TotalsUnreadable
| PaymentCancelled
| SaleFailed (e : SaleError)
| SaleCompleted (sale_id : Z) (receipt_number : string).

Definition set_database (app : App) (db : Database) (w : World) : App :=
  {| cart := cart app; discount_var := discount_var app;
     tax_percent := tax_percent app; currency_symbol := currency_symbol app;
     subtotal_var := subtotal_var app;
     discount_amount_var := discount_amount_var app;
     tax_var := tax_var app; total_var := total_var app;
     cashier_setting := cashier_setting app;
     database := db; world := w |}.

(** [ModernPOSApp.complete_sale].  The customer id it passes is always
    [None]: it is read with [getattr(row, 'id', None)] from a [sqlite3.Row],
    which has no such attribute.  The receipt [generate_enhanced_receipt]
    prints between the sale and [new_sale] is left out.  It raises only on a
    sale stored with a NaN discount, which is read back as [None] and then
    compared with 0; [new_sale] is not reached then.  No checkout gets
    there: [update_totals] writes the four totals together, and with a NaN
    discount the tax and the total are NaN too, which [insert_sale]
    refuses. *)
Definition complete_sale (app : App) (total paid_amount : float)
    (payment_method : string) (subtotal discount_amount tax_amount : float)
    : App * Outcome :=
  match save_sale (world app) (database app) (cart app) subtotal discount_amount
          tax_amount total paid_amount payment_method (cashier_setting app) None with
  | (inr (sale_id, receipt_number), db, w) =>
      (new_sale (set_database app db w), SaleCompleted sale_id receipt_number)
  | (inl e, db, w) => (set_database app db w, SaleFailed e)
  end.

(** The amounts [process_payment] reads back from the totals panel:
    [float(self.total_var.get().replace(currency, ''))] and the like, the
    discount with [f"-{currency}"] taken out. *)
Definition shown_total (app : App) : option float :=
  float_of_string (remove_all (currency_symbol app) (total_var app)).

Definition shown_subtotal (app : App) : option float :=
  float_of_string (remove_all (currency_symbol app) (subtotal_var app)).

Definition shown_discount (app : App) : option float :=
  float_of_string (remove_all ("-" +:+ currency_symbol app) (discount_amount_var app)).

Definition shown_tax (app : App) : option float :=
  float_of_string (remove_all (currency_symbol app) (tax_var app)).

(** [ModernPOSApp.process_payment] *)
Definition process_payment (app : App) (events : list DialogEvent) : App * Outcome :=
  match cart app with
  | [] => (app, CartEmpty)
  | _ :: _ =>
      match shown_total app, shown_subtotal app, shown_discount app, shown_tax app with
      | Some total, Some subtotal, Some discount, Some tax =>
          match payment_dialog total events with
          | Some (paid_amount, payment_method) =>
              complete_sale app total paid_amount payment_method subtotal discount tax
          | None => (app, PaymentCancelled)
          end
      | _, _, _, _ => (app, TotalsUnreadable)
      end
  end.

(** [ModernPOSApp.checkout] *)
Definition checkout (app : App) (events : list DialogEvent) : App * Outcome :=
  match cart app with
  | [] => (app, CartEmpty)
  | _ :: _ => process_payment app events
  end.

(** *** The cart of the main window *)

(** The product [add_to_cart] is given: a row of [SELECT * FROM products],
    read when the product grid was drawn or the barcode was looked up.  Its
    stock is a number, as it is for every product the application writes. *)
Record Product := {
  product_id : Z;
  product_name : string;
  product_price : float;
  product_cost : float;
  product_stock : Z
}.

Definition set_cart (app : App) (lines : list CartLine) : App :=
  {| cart := lines; discount_var := discount_var app;
     tax_percent := tax_percent app; currency_symbol := currency_symbol app;
     subtotal_var := subtotal_var app;
     discount_amount_var := discount_amount_var app;
     tax_var := tax_var app; total_var := total_var app;
     cashier_setting := cashier_setting app;
     database := database app; world := world app |}.

(** The operator types into the discount field: [discount_var] changes, and
    nothing else, the field having no callback. *)
Definition type_discount (app : App) (text : string) : App :=
  {| cart := cart app; discount_var := text;
     tax_percent := tax_percent app; currency_symbol := currency_symbol app;
     subtotal_var := subtotal_var app;
     discount_amount_var := discount_amount_var app;
     tax_var := tax_var app; total_var := total_var app;
     cashier_setting := cashier_setting app;
     database := database app; world := world app |}.

(** What [SettingsDialog.save_settings] does to the currency symbol of the
    application when it accepts its fields:
    [self.parent.settings['currency_symbol'] = currency_symbol], with no
    refresh of the panel. *)
Definition set_currency (app : App) (symbol : string) : App :=
  {| cart := cart app; discount_var := discount_var app;
     tax_percent := tax_percent app; currency_symbol := symbol;
     subtotal_var := subtotal_var app;
     discount_amount_var := discount_amount_var app;
     tax_var := tax_var app; total_var := total_var app;
     cashier_setting := cashier_setting app;
     database := database app; world := world app |}.

(** [ModernPOSApp.refresh_cart]: the tree that shows the cart is drawn
    again, which is not modelled, and the totals are brought up to date. *)
Definition refresh_cart (app : App) : App := update_totals app.

(** [item['qty'] = qty] *)
Definition with_qty (item : CartLine) (qty : Z) : CartLine :=
  {| item_id := item_id item; item_name := item_name item;
     item_price := item_price item; item_cost := item_cost item;
     item_qty := qty |}.

(** The loop of [add_to_cart] over the cart: the cart it leaves when it has
    met a line of the product and broken out, [None] when it has run to its
    end. *)
Fixpoint increase_line (product : Product) (lines : list CartLine)
    : option (list CartLine) :=
  match lines with
  | [] => None
  | item :: rest =>
      if item_id item =? product_id product then
        Some ((if item_qty item <? product_stock product
               then with_qty item (item_qty item + 1)
               else item) :: rest)
      else cons item <$> increase_line product rest
  end.

(** The line [add_to_cart] appends for a product that has none. *)
Definition new_line (product : Product) : CartLine :=
  {| item_id := product_id product; item_name := product_name product;
     item_price := product_price product; item_cost := product_cost product;
     item_qty := 1 |}.

(** [ModernPOSApp.add_to_cart] *)
Definition add_to_cart (app : App) (product : Product) : App :=
  if product_stock product <=? 0 then app
  else
    match increase_line product (cart app) with
    | Some lines => refresh_cart (set_cart app lines)
    | None => refresh_cart (set_cart app (cart app ++ [new_line product]))
    end.

(** [ModernPOSApp.edit_cart_item], for the line selected in the tree, if
    any, and what the operator does in the quantity dialog.  The tree shows
    the cart line by line; an index beyond the cart raises IndexError with
    nothing done. *)
Definition edit_cart_item (app : App) (selection : option nat)
    (events : list QuantityEvent) : App :=
  match selection with
  | None => app
  | Some index =>
      match cart app !! index with
      | None => app
      | Some cart_item =>
          match quantity_dialog (item_qty cart_item) events with
          | None => app
          | Some result =>
              if result =? 0
              then update_totals (refresh_cart (set_cart app (delete index (cart app))))
              else update_totals (refresh_cart
                     (set_cart app (<[index := with_qty cart_item result]> (cart app))))
          end
      end
  end.

(** [ModernPOSApp.remove_cart_item] *)
Definition remove_cart_item (app : App) (selection : option nat) : App :=
  match selection with
  | None => app
  | Some index =>
      match cart app !! index with
      | None => app
      | Some _ => refresh_cart (set_cart app (delete index (cart app)))
      end
  end.

(** [ModernPOSApp.clear_cart], with the answer to its question. *)
Definition clear_cart (app : App) (confirmed : bool) : App :=
  match cart app with
  | [] => app
  | _ :: _ => if confirmed then refresh_cart (set_cart app []) else app
  end.

(** [ModernPOSApp.apply_quick_discount] *)
Definition apply_quick_discount (app : App) : App :=
  match cart app with
  | [] => app
  | _ :: _ => update_totals (type_discount app "5%")
  end.

(** [ModernPOSApp.load_settings]: the settings dict and [tax_percent];
    [None] is the ValueError of [float].  The theme is left out. *)
Definition settings_keys : list string :=
  ["tax_percent"; "currency_symbol"; "receipt_footer"; "cashier_name"; "theme"].

Definition load_settings (table : gmap string string) : option (gmap string string * float) :=
  let settings : gmap string string :=
    foldl (λ s key, <[key := default "" (get_setting table key)]> s) ∅ settings_keys in
  match settings !! "tax_percent" with
  | Some text => (λ tax, (settings, tax)) <$> float_of_string text
  | None => Some (settings, of_Z 0)
  end.

End ModernPOSApp.

Import ModernPOSApp.

(** [CartViewDialog]: the same two operations from the cart window, on the
    cart of the main window. *)
Module CartViewDialog.

(** [CartViewDialog.edit_quantity] *)
Definition edit_quantity (app : App) (selection : option nat)
    (events : list QuantityEvent) : App :=
  match selection with
  | None => app
  | Some index =>
      match cart app !! index with
      | None => app
      | Some cart_item =>
          match quantity_dialog (item_qty cart_item) events with
          | None => app
          | Some result =>
              if result =? 0
              then refresh_cart (set_cart app (delete index (cart app)))
              else refresh_cart
                     (set_cart app (<[index := with_qty cart_item result]> (cart app)))
          end
      end
  end.

(** [CartViewDialog.remove_item] *)
Definition remove_item (app : App) (selection : option nat) : App :=
  match selection with
  | None => app
  | Some index =>
      match cart app !! index with
      | None => app
      | Some _ => refresh_cart (set_cart app (delete index (cart app)))
      end
  end.

End CartViewDialog.

(** ** The stock dialog *)

Module StockUpdateDialog.

(** The stock [update_stock] is about to write, or the text of the error box
    it shows instead.  [current_stock] is the stock the dialog was opened
    with, [amount] the integer in its amount field, [update_type] the value
    of the radio buttons. *)
Definition new_stock (current_stock amount : Z) (update_type : string) : string + Z :=
  if amount <? 0 then inl "Amount cannot be negative."
  else
    let computed : string + Z :=
      if String.eqb update_type "set" then inr amount
      else if String.eqb update_type "add" then inr (current_stock + amount)
      else if String.eqb update_type "subtract" then
        if current_stock <? amount
        then inl "Cannot subtract more than current stock."
        else inr (current_stock - amount)
      else inr current_stock in
    match computed with
    | inl message => inl message
    | inr stock => if stock <? 0 then inl "Stock cannot be negative." else inr stock
    end.

Definition set_stock (stock : Z) (row : ProductRow) : ProductRow :=
  {| p_name := p_name row; p_price := p_price row; p_stock := stock |}.

(** [StockUpdateDialog.update_stock]: the database it leaves and
    [self.result].  The write is
    [UPDATE products SET stock = ? WHERE id = ?]. *)
Definition update_stock (db : Database) (product_id current_stock amount : Z)
    (update_type : string) : Database * option Z :=
  match new_stock current_stock amount update_type with
  | inl _ => (db, None)
  | inr stock =>
      ({| products := alter (set_stock stock) product_id (products db);
          sales := sales db; sale_items := sale_items db;
          sales_seq := sales_seq db; sale_items_seq := sale_items_seq db |},
       Some stock)
  end.

End StockUpdateDialog.

(** ** The operator's actions

    What the operator can do to the cart and to the stock from the main
    window, the cart window and the stock dialog.  Holding and resuming a
    cart, which go through JSON, the product form and the settings dialog
    are not among them. *)
Inductive Action :=
| AddToCart (product : Product)
| EditCartItem (selection : option nat) (events : list QuantityEvent)
| RemoveCartItem (selection : option nat)
| ClearCart (confirmed : bool)
| ViewEditQuantity (selection : option nat) (events : list QuantityEvent)
| ViewRemoveItem (selection : option nat)
| TypeDiscount (text : string)
| QuickDiscount
| NewSale
| Checkout (events : list DialogEvent)
| UpdateStock (product_id current_stock amount : Z) (update_type : string).

Definition perform (app : App) (action : Action) : App :=
  match action with
  | AddToCart product => add_to_cart app product
  | EditCartItem selection events => edit_cart_item app selection events
  | RemoveCartItem selection => remove_cart_item app selection
  | ClearCart confirmed => clear_cart app confirmed
  | ViewEditQuantity selection events => CartViewDialog.edit_quantity app selection events
  | ViewRemoveItem selection => CartViewDialog.remove_item app selection
  | TypeDiscount text => type_discount app text
  | QuickDiscount => apply_quick_discount app
  | NewSale => new_sale app
  | Checkout events => (checkout app events).1
  | UpdateStock product_id current_stock amount update_type =>
      set_database app
        (StockUpdateDialog.update_stock (database app) product_id current_stock
           amount update_type).1
        (world app)
  end.

(** A session: the actions one after the other. *)
Definition run (app : App) (actions : list Action) : App :=
  foldl perform app actions.


(** ** Scenarios *)

(** The sample catalog of [DatabaseManager.insert_sample_data], first two
    products, with the stock given. *)
Definition water (stock : Z) : ProductRow :=
  {| p_name := "Water"; p_price := of_decimal false 150 (-2); p_stock := stock |}.

Definition soda (stock : Z) : ProductRow :=
  {| p_name := "Soda"; p_price := of_decimal false 200 (-2); p_stock := stock |}.

Definition shop (water_stock soda_stock : Z) : Database :=
  {| products := <[1 := water water_stock]> (<[2 := soda soda_stock]> ∅);
     sales := []; sale_items := []; sales_seq := 0; sale_items_seq := 0 |}.

Definition line (id : Z) (name : string) (price : float) (qty : Z) : CartLine :=
  {| item_id := id; item_name := name; item_price := price;
     item_cost := of_Z 0; item_qty := qty |}.

Definition water_line (qty : Z) : CartLine :=
  line 1 "Water" (of_decimal false 150 (-2)) qty.

Definition soda_line (qty : Z) : CartLine :=
  line 2 "Soda" (of_decimal false 200 (-2)) qty.

Definition a_world : World :=
  {| clock := 1700000000; random_source := fun n => 1234 + Z.of_nat n;
     random_used := 0 |}.

Definition an_app (c : list CartLine) (discount_text : string) (tax : Z)
    (db : Database) : App :=
  update_totals
    {| cart := c; discount_var := discount_text; tax_percent := of_Z tax;
       currency_symbol := "PKR";
       subtotal_var := "PKR0.00"; discount_amount_var := "PKR0.00";
       tax_var := "PKR0.00"; total_var := "PKR0.00"; cashier_setting := "Admin";
       database := db; world := a_world |}.

(** Scenario A of the spec: 2 at 1.50 and 1 at 2.00. *)
Definition scenario_a_cart : list CartLine := [water_line 2; soda_line 1].

(** A run of scenario A through the whole checkout: the operator first
    offers 4.00, then 5.00. *)
Definition scenario_a_app : App := an_app scenario_a_cart "10%" 5 (shop 50 40).


(** A line for a product that is not in the catalog. *)
Definition ghost_line : CartLine := line 99 "Ghost" (of_Z 1) 1.

(** A database in which the first receipt number [a_world] gives is taken. *)
Definition shop_with_sale : Database :=
  {| products := products (shop 50 40);
     sales := [ {| s_id := 1; s_receipt_number := "R17000000001234";
                   s_customer_id := None; s_subtotal := of_Z 2;
                   s_discount := of_Z 0; s_tax := of_Z 0; s_total := of_Z 2;
                   s_paid := of_Z 2; s_change_amount := of_Z 0;
                   s_payment_method := "Cash"; s_cashier_name := "Admin" |} ];
     sale_items := []; sales_seq := 1; sale_items_seq := 0 |}.

(** The application as [ModernPOSApp.__init__] leaves it, the settings
    being the defaults [init_db] has just written: an empty cart, tax 0, and
    "PKR0.00" in the four fields of the panel, the discount among them. *)
Definition starting_app (db : Database) : App :=
  {| cart := []; discount_var := "0"; tax_percent := zero;
     currency_symbol := "PKR";
     subtotal_var := "PKR0.00"; discount_amount_var := "PKR0.00";
     tax_var := "PKR0.00"; total_var := "PKR0.00"; cashier_setting := "Admin";
     database := db; world := a_world |}.

(** Product rows as the product grid has them. *)
Definition water_product (stock : Z) : Product :=
  {| product_id := 1; product_name := "Water";
     product_price := of_decimal false 150 (-2);
     product_cost := of_decimal false 75 (-2); product_stock := stock |}.

Definition soda_product (stock : Z) : Product :=
  {| product_id := 2; product_name := "Soda";
     product_price := of_decimal false 200 (-2);
     product_cost := of_Z 1; product_stock := stock |}.

(** A minute after [a_world]. *)
Definition later_world : World :=
  {| clock := 1700000060; random_source := fun n => 1234 + Z.of_nat n;
     random_used := 0 |}.

(** A session at the counter: water, soda and water again go into the
    cart, the soda is edited to 3, a discount is typed, the water is
    removed, the sale is paid, and the stock of water is corrected, first by
    too much. *)
Definition a_session : list Action :=
  [ AddToCart (water_product 3); AddToCart (soda_product 40);
    AddToCart (water_product 3);
    EditCartItem (Some 1%nat) [PressPlus; PressPlus; PressSave];
    TypeDiscount "10%"; RemoveCartItem (Some 0%nat);
    Checkout [PressProcess (of_Z 10) "Cash"];
    UpdateStock 1 3 5 "subtract"; UpdateStock 1 3 2 "subtract" ].

(** ** Vocabulary of the statements *)

(** A decimal digit, for the parser of [float]. *)
Definition is_digit (c : ascii) : Prop := is_Some (digit_of c).

(** The characters [format_2f] writes. *)
Definition numeric_char (c : ascii) : Prop :=
  is_digit c ∨ c ∈ ["."; "-"; "n"; "a"; "i"; "f"]%char.

(** A currency symbol that does not start like a number: "PKR", "$",
    "Rs." and so on. *)
Definition plain_currency (currency : string) : Prop :=
  ∃ c rest, currency = String c rest ∧ ¬ numeric_char c.

(** The line passes the stock check of [save_sale]. *)
Definition line_ok (prods : gmap Z ProductRow) (item : CartLine) : Prop :=
  ∃ row, prods !! item_id item = Some row ∧ item_qty item ≤ p_stock row.

(** The line asks for more than the persisted stock of its product. *)
Definition line_over_stock (prods : gmap Z ProductRow) (item : CartLine) : Prop :=
  ∃ row, prods !! item_id item = Some row ∧ p_stock row < item_qty item.

(** The price of the line and its total are numbers. *)
Definition priced (item : CartLine) : Prop :=
  is_nan (item_price item) = false ∧ is_nan (line_total item) = false.

(** The persisted stock of a product, 0 when there is no such product. *)
Definition stock_of (db : Database) (product_id : Z) : Z :=
  default 0 (p_stock <$> products db !! product_id).

(** The quantity a cart asks of one product, over all its lines. *)
Fixpoint demand (product_id : Z) (cart : list CartLine) : Z :=
  match cart with
  | [] => 0
  | item :: rest =>
      (if decide (item_id item = product_id) then item_qty item else 0)
      + demand product_id rest
  end.

Definition sum_Z (l : list Z) : Z := foldr Z.add 0 l.

(** The products a cart refers to, each once. *)
Definition referenced (cart : list CartLine) : list Z :=
  remove_dups (item_id <$> cart).

(** The sale_items row [save_sale] writes for a line. *)
Definition item_row_of (sale_id : Z) (item : CartLine) (row : SaleItemRow) : Prop :=
  si_sale_id row = sale_id ∧ si_product_id row = item_id item
  ∧ si_quantity row = item_qty item ∧ si_unit_price row = item_price item
  ∧ si_total_price row = mul (si_unit_price row) (of_Z (si_quantity row)).

(** A cart with at most one line per product and at least one unit on every
    line. *)
Definition cart_ok (lines : list CartLine) : Prop :=
  NoDup (item_id <$> lines) ∧ Forall (λ item, 1 ≤ item_qty item) lines.

(** No product of the catalog has a stock below zero. *)
Definition stocks_ok (db : Database) : Prop := ∀ p, 0 ≤ stock_of db p.

(** The product row carries the stock this database has for it. *)
Definition read_from (db : Database) (product : Product) : Prop :=
  ∃ row, products db !! product_id product = Some row
         ∧ product_stock product = p_stock row.

(** The constraints of the schema on the sales and sale_items tables: the
    primary keys, handed out by the AUTOINCREMENT sequences, the UNIQUE
    receipt number, and the two foreign keys of sale_items. *)
Definition consistent (db : Database) : Prop :=
  NoDup (s_id <$> sales db) ∧
  Forall (λ s, s_id s ≤ sales_seq db) (sales db) ∧
  NoDup (s_receipt_number <$> sales db) ∧
  NoDup (si_id <$> sale_items db) ∧
  Forall (λ si, si_id si ≤ sale_items_seq db) (sale_items db) ∧
  Forall (λ si, sale_exists db (si_sale_id si) = true
                ∧ is_Some (products db !! si_product_id si)) (sale_items db).

(** The row [get_sale_details] gives for a line of the cart sold: the
    sale_items row of the line with the name the catalog has for its
    product. *)
Definition detail_row_of (db : Database) (sale_id : Z) (item : CartLine)
    (row : SaleDetailRow) : Prop :=
  item_row_of sale_id item (d_item row) ∧
  p_name <$> products db !! item_id item = Some (d_product_name row).

(** The receipt numbers of the sales table were all made before second
    [t] of the clock. *)
Definition issued_before (t : Z) (db : Database) : Prop :=
  Forall (λ s, ∃ t0 r0, s_receipt_number s = make_receipt_number t0 r0
                        ∧ 0 ≤ t0 < t ∧ 1000 ≤ r0 ≤ 9999) (sales db).

(** What [process_payment] reads from the panel: the currency symbol and
    the four texts. *)
Definition panel (app : App) : string * string * string * string * string :=
  (currency_symbol app, subtotal_var app, discount_amount_var app, tax_var app,
   total_var app).

(** The four totals shown can be read back. *)
Definition readable (app : App) : Prop :=
  is_Some (shown_total app) ∧ is_Some (shown_subtotal app) ∧
  is_Some (shown_discount app) ∧ is_Some (shown_tax app).


(** Zero, a number below zero, or not a number. *)
Definition no_more_than_zero (x : float) : Prop :=
  match x with
  | S754_nan | S754_zero _ | S754_infinity true => True
  | S754_finite true _ e => emin prec emax ≤ e
  | _ => False
  end.

(** Every character of a given text is one [format_2f] writes. *)
Ltac numeric_chars :=
  repeat (apply List.Forall_cons;
          [first [left; eexists; reflexivity | right; set_solver]|]);
  apply List.Forall_nil.

(** Gives the one row of a sales table as the witness of the goal. *)
Ltac only_row :=
  match goal with
  | |- ∃ row, sales ?db = [row] ∧ _ =>
      let rows := eval vm_compute in (sales db) in
      match rows with [?r] => exists r end
  end.

(** ** Binary64 facts *)

(** Rounding a number that is not negative gives no negative number. *)
Lemma round_aux_not_negative m e l :
  ltb (binary_round_aux prec emax false m e l) zero = false.
Proof.
  unfold binary_round_aux.
  destruct (shr_fexp prec emax m e l) as [mrs' e'].
  destruct (shr_fexp prec emax _ e' loc_Exact) as [mrs'' e''].
  destruct (shr_m mrs''); [reflexivity| |reflexivity].
  destruct (e'' <=? emax - prec); reflexivity.
Qed.

Lemma normalize_not_negative z e :
  0 ≤ z → ltb (binary_normalize prec emax z e false) zero = false.
Proof.
  destruct z as [|p|p]; intros Hz; [reflexivity| |lia].
  unfold binary_normalize, binary_round.
  destruct (shl_align p e _) as [mz ez]. apply round_aux_not_negative.
Qed.

Lemma digits2_size p : digits2_pos p = Pos.size p.
Proof. induction p as [p IH|p IH|]; simpl; by rewrite ?IH. Qed.

Lemma digits2_upper p : Z.pos p < 2 ^ Z.pos (digits2_pos p).
Proof.
  rewrite digits2_size. pose proof (Pos.size_gt p) as H.
  apply Pos2Z.pos_lt_pos in H. by rewrite Pos2Z.inj_pow in H.
Qed.

Lemma digits2_lower p : 2 ^ Z.pos (digits2_pos p) ≤ 2 * Z.pos p.
Proof.
  rewrite digits2_size. pose proof (Pos.size_le p) as H.
  apply Pos2Z.pos_le_pos in H. by rewrite Pos2Z.inj_pow in H.
Qed.

Lemma shl_align_value m e e' :
  e' ≤ e → Z.pos (shl_align m e e').1 = Z.pos m * 2 ^ (e - e').
Proof.
  intros Hle. unfold shl_align. destruct (e' - e) as [|d|d] eqn:Hd; simpl.
  - replace (e - e') with 0 by lia. lia.
  - lia.
  - change (Pos.iter xO m d) with (shift_pos d m).
    rewrite shift_pos_correct. replace (e - e') with (Z.pos d) by lia.
    rewrite Z.pow_pos_fold. lia.
Qed.

(** Between two canonical numbers, the one with the larger exponent is the
    larger. *)
Lemma canonical_order mx ex my ey :
  bounded prec emax mx ex = true → bounded prec emax my ey = true →
  ey < ex → Z.pos my < Z.pos mx * 2 ^ (ex - ey).
Proof.
  unfold bounded, canonical_mantissa, fexp, emin, prec, emax.
  intros [Hx _]%andb_true_iff [Hy _]%andb_true_iff Hlt.
  apply Z.eqb_eq in Hx, Hy.
  assert (Hdx : Z.pos (digits2_pos mx) = 53) by lia.
  assert (Hdy : Z.pos (digits2_pos my) ≤ 53) by lia.
  pose proof (digits2_upper my) as Hmy. pose proof (digits2_lower mx) as Hmx.
  rewrite Hdx in Hmx.
  assert (2 ^ Z.pos (digits2_pos my) ≤ 2 ^ 53) by (apply Z.pow_le_mono_r; lia).
  assert (2 ^ 1 ≤ 2 ^ (ex - ey)) by (apply Z.pow_le_mono_r; lia).
  change (2 ^ 1) with 2 in *. nia.
Qed.

Lemma sub_not_negative x y :
  valid x → valid y → ltb x y = false → ltb (sub x y) zero = false.
Proof.
  unfold valid.
  destruct x as [sx|sx| |sx mx ex], y as [sy|sy| |sy my ey];
    try (destruct sx); try (destruct sy); try reflexivity; try discriminate;
    simpl valid_binary; intros Hx Hy Hlt.
  all: unfold sub, SFsub; apply normalize_not_negative.
  all: unfold ltb, SFltb, SFcompare in Hlt.
  all: destruct (Z.compare_spec ex ey) as [Heq|Hex|Hex]; try discriminate Hlt.
  all: unfold cond_Zopp.
  all: try (rewrite !shl_align_value by lia).
  all: try (rewrite Pos.compare_cont_spec in Hlt; simpl in Hlt;
            destruct (Pos.compare_spec mx my) as [Hm|Hm|Hm]; try discriminate Hlt).
  all: try (subst ey; rewrite Z.min_id, Z.sub_diag; simpl; lia).
  all: try (rewrite Z.min_l by lia; rewrite Z.sub_diag;
            pose proof (canonical_order my ey mx ex Hy Hx Hex); simpl; lia).
  all: try (rewrite Z.min_r by lia; rewrite Z.sub_diag;
            pose proof (canonical_order mx ex my ey Hx Hy Hex); simpl; lia).
  all: pose proof (Z.pow_nonneg 2 (ex - ex `min` ey) ltac:(lia));
       pose proof (Z.pow_nonneg 2 (ey - ex `min` ey) ltac:(lia)); nia.
Qed.

Lemma not_negative_number x :
  is_nan x = false → ltb x zero = false → leb zero x = true.
Proof. destruct x as [[]|[]| |[] m e]; try reflexivity; discriminate. Qed.

Lemma compare_swap x y : SFcompare y x = CompOpp <$> SFcompare x y.
Proof.
  destruct x as [sx|sx| |sx mx ex], y as [sy|sy| |sy my ey];
    try (destruct sx); try (destruct sy); try reflexivity; simpl.
  all: rewrite (Z.compare_antisym ex ey).
  all: destruct (ex ?= ey); simpl; try reflexivity.
  all: pose proof (Pos.compare_cont_antisym mx my Eq) as Ha; simpl in Ha;
       rewrite <- Ha.
  all: destruct (Pos.compare_cont Eq mx my); reflexivity.
Qed.

Lemma not_below_is_at_least x y :
  is_nan x = false → is_nan y = false → ltb x y = false → leb y x = true.
Proof.
  intros Hx Hy. unfold ltb, leb, SFltb, SFleb. rewrite (compare_swap x y).
  destruct (SFcompare x y) as [[]|] eqn:Hc; simpl; try reflexivity; try discriminate.
  destruct x, y; simpl in *; discriminate.
Qed.

Lemma mul_not_negative x y :
  ltb x zero = false → ltb y zero = false → ltb (mul x y) zero = false.
Proof.
  destruct x as [sx|sx| |sx mx ex], y as [sy|sy| |sy my ey];
    try (destruct sx); try (destruct sy); try reflexivity; try discriminate.
  intros _ _. apply round_aux_not_negative.
Qed.

Lemma div_not_negative x my ey :
  ltb x zero = false → ltb (div x (S754_finite false my ey)) zero = false.
Proof.
  destruct x as [sx|sx| |sx mx ex]; try (destruct sx);
    try reflexivity; try discriminate.
  intros _. unfold div, SFdiv.
  destruct (SFdiv_core_binary prec emax (Z.pos mx) ex (Z.pos my) ey) as [[mz ez] lz].
  apply round_aux_not_negative.
Qed.

Lemma add_not_negative x y :
  ltb x zero = false → ltb y zero = false → ltb (add x y) zero = false.
Proof.
  destruct x as [sx|sx| |sx mx ex], y as [sy|sy| |sy my ey];
    try (destruct sx); try (destruct sy); try reflexivity; try discriminate.
  intros _ _. unfold add, SFadd. apply normalize_not_negative. simpl. lia.
Qed.

Lemma of_Z_not_negative n : 0 ≤ n → ltb (of_Z n) zero = false.
Proof. apply normalize_not_negative. Qed.

(** ** Numbers below zero *)














Lemma no_more_is_not_above x : no_more_than_zero x → ltb zero x = false.
Proof. destruct x as [s|[]| |[] m e]; simpl; intros H; try contradiction; reflexivity. Qed.







(** ** Reading back what was formatted *)

(** What the parser needs to know of a digit. *)
Lemma digit_facts c :
  is_digit c →
  is_space c = false ∧ Ascii.eqb c "-" = false ∧ Ascii.eqb c "+" = false ∧
  Ascii.eqb (lower c) "i" = false ∧ Ascii.eqb (lower c) "n" = false.
Proof.
  intros [d Hd]. revert Hd.
  destruct c as [[] [] [] [] [] [] [] []]; vm_compute; intros Hd;
    first [discriminate Hd | repeat split].
Qed.

Lemma chars_app s1 s2 :
  list_ascii_of_string (s1 +:+ s2) = list_ascii_of_string s1 ++ list_ascii_of_string s2.
Proof. induction s1 as [|c s1 IH]; simpl; [reflexivity|]. by rewrite IH. Qed.

Lemma uint_digits d : Forall is_digit (list_ascii_of_string (NilEmpty.string_of_uint d)).
Proof.
  induction d; simpl; constructor; try assumption; by eexists.
Qed.

Lemma str_N_digits n :
  ∃ c l, list_ascii_of_string (str_N n) = c :: l ∧ Forall is_digit (c :: l).
Proof.
  unfold str_N, NilZero.string_of_uint.
  pose proof (uint_digits (N.to_uint n)) as H.
  destruct (N.to_uint n) eqn:Hu; simpl in *;
    try (eexists _, _; split; [reflexivity | exact H]).
  eexists _, _. split; [reflexivity|]. constructor; [by eexists | constructor].
Qed.

Lemma str_Z_digits z :
  0 ≤ z → ∃ c l, list_ascii_of_string (str_Z z) = c :: l ∧ Forall is_digit (c :: l).
Proof. destruct z; intros Hz; [apply str_N_digits .. | lia]. Qed.

Lemma two_digits_digits z :
  0 ≤ z → ∃ c l, list_ascii_of_string (two_digits z) = c :: l ∧ Forall is_digit (c :: l).
Proof.
  intros Hz. unfold two_digits. destruct (str_Z_digits z Hz) as (c & l & Heq & Hd).
  destruct (z <? 10); [|eauto].
  rewrite chars_app, Heq. eexists _, _. split; [reflexivity|].
  constructor; [by eexists | exact Hd].
Qed.

Lemma cents_nonneg m e : 0 ≤ cents m e.
Proof.
  unfold cents. destruct (0 <=? e) eqn:He.
  - apply Z.leb_le in He. pose proof (Z.pow_nonneg 2 e ltac:(lia)). nia.
  - unfold div_half_even.
    assert (0 ≤ Z.pos m * 100 / 2 ^ (- e)).
    { apply Z.div_pos; [lia|]. apply Z.pow_pos_nonneg; lia. }
    destruct (_ ?= _); [destruct (Z.even _)| |]; lia.
Qed.

Lemma digits_tail_run ds : ∀ rest acc len,
  Forall is_digit ds →
  (rest = [] ∨ ∃ c r, rest = c :: r ∧ digit_of c = None ∧ Ascii.eqb c "_" = false) →
  ∃ n k, digits_tail (ds ++ rest) acc len = (n, k, rest).
Proof.
  induction ds as [|c ds IH]; intros rest acc len Hds Hrest; simpl.
  - destruct Hrest as [->|(c & r & -> & Hc & Hu)]; simpl; [eauto|].
    rewrite Hc, Hu. eauto.
  - inversion Hds as [|? ? [d Hd] Hds']; subst. rewrite Hd. by apply IH.
Qed.

Lemma digitpart_run c ds rest acc :
  Forall is_digit (c :: ds) →
  (rest = [] ∨ ∃ c r, rest = c :: r ∧ digit_of c = None ∧ Ascii.eqb c "_" = false) →
  ∃ n k, digitpart ((c :: ds) ++ rest) acc = Some (n, k, rest).
Proof.
  intros Hds Hrest. inversion Hds as [|? ? [d Hd] Hds']; subst. simpl. rewrite Hd.
  destruct (digits_tail_run ds rest (10 * acc + d) 1 Hds' Hrest) as (n & k & ->).
  eauto.
Qed.

Lemma strip_nothing l : Forall (λ c, is_space c = false) l → strip l = l.
Proof.
  intros Hl. unfold strip.
  assert (Hdrop : ∀ k, Forall (λ c, is_space c = false) k → drop_spaces k = k).
  { intros [|c k] Hk; [reflexivity|]. inversion Hk as [|? ? Hc _]; subst.
    simpl. by rewrite Hc. }
  rewrite (Hdrop l Hl), Hdrop by (by apply Forall_rev). apply rev_involutive.
Qed.

(** The text of an amount with two decimals is read back as a number. *)
Lemma decimal_text_read neg c1 d1 c2 d2 :
  Forall is_digit (c1 :: d1) → Forall is_digit (c2 :: d2) →
  is_Some (float_of_chars
             (list_ascii_of_string (sign_str neg) ++ (c1 :: d1) ++ "."%char :: c2 :: d2)).
Proof.
  intros H1 H2. unfold float_of_chars.
  assert (Hspace : Forall (λ c, is_space c = false)
            (list_ascii_of_string (sign_str neg) ++ (c1 :: d1) ++ "."%char :: c2 :: d2)).
  { apply Forall_app. split; [destruct neg; repeat constructor|].
    apply Forall_app. split.
    - eapply Forall_impl; [exact H1|]. intros c Hc. by apply digit_facts.
    - constructor; [reflexivity|].
      eapply Forall_impl; [exact H2|]. intros c Hc. by apply digit_facts. }
  rewrite (strip_nothing _ Hspace).
  assert (Hc1 : is_digit c1) by (by inversion H1).
  destruct (digit_facts c1 Hc1) as (_ & Hminus & Hplus & Hi & Hn).
  assert (Hsign : read_sign (list_ascii_of_string (sign_str neg)
                               ++ (c1 :: d1) ++ "."%char :: c2 :: d2)
                  = (neg, (c1 :: d1) ++ "."%char :: c2 :: d2)).
  { destruct neg; simpl; [reflexivity|]. by rewrite Hminus, Hplus. }
  rewrite Hsign. simpl map. simpl string_of_list_ascii.
  replace (String.eqb _ "inf") with false
    by (symmetry; simpl; by rewrite Hi).
  replace (String.eqb _ "infinity") with false
    by (symmetry; simpl; by rewrite Hi).
  replace (String.eqb _ "nan") with false
    by (symmetry; simpl; by rewrite Hn).
  simpl orb. cbv iota. unfold read_number.
  destruct (digitpart_run c1 d1 ("."%char :: c2 :: d2) 0 H1) as (n & k & ->).
  { right. eexists _, _. split; [reflexivity|]. split; reflexivity. }
  destruct (digitpart_run c2 d2 [] n H2) as (n' & k' & Hfrac); [by left|].
  rewrite app_nil_r in Hfrac. cbn -[digitpart of_decimal]. rewrite Hfrac.
  cbn -[of_decimal]. eauto.
Qed.

(** Rounding to two decimals is defined on every number. *)
Lemma round2_defined x : is_Some (round2 x).
Proof.
  unfold round2, float_of_string.
  destruct x as [[]|[]| |s m e]; [vm_compute; eauto ..|].
  unfold format_2f, format_cents. rewrite !chars_app.
  pose proof (cents_nonneg m e) as Hc.
  destruct (str_Z_digits (cents m e / 100)) as (c1 & d1 & -> & H1);
    [apply Z.div_pos; lia|].
  destruct (two_digits_digits (cents m e mod 100)) as (c2 & d2 & -> & H2);
    [apply Z.mod_pos_bound; lia|].
  by apply decimal_text_read.
Qed.

(** ** Taking the currency symbol out again *)

Lemma format_2f_numeric x :
  Forall numeric_char (list_ascii_of_string (format_2f x)).
Proof.
  assert (Hsign : ∀ s, Forall numeric_char (list_ascii_of_string (sign_str s))).
  { intros []; simpl; numeric_chars. }
  assert (Hdigits : ∀ l, Forall is_digit l → Forall numeric_char l).
  { intros l Hl. eapply Forall_impl; [exact Hl|]. intros c Hc. by left. }
  destruct x as [s|s| |s m e]; simpl; rewrite ?chars_app.
  - apply Forall_app. split; [apply Hsign|]. simpl. numeric_chars.
  - apply Forall_app. split; [apply Hsign|]. simpl. numeric_chars.
  - numeric_chars.
  - pose proof (cents_nonneg m e) as Hc. unfold format_cents.
    rewrite !chars_app.
    destruct (str_Z_digits (cents m e / 100)) as (c1 & d1 & -> & H1);
      [apply Z.div_pos; lia|].
    destruct (two_digits_digits (cents m e mod 100)) as (c2 & d2 & -> & H2);
      [apply Z.mod_pos_bound; lia|].
    apply Forall_app. split; [apply Hsign|].
    apply Forall_app. split; [by apply Hdigits|].
    apply Forall_app. split; [|by apply Hdigits].
    simpl. numeric_chars.
Qed.

Lemma is_prefix_elem old l c :
  is_prefix old l = true → c ∈ old → c ∈ l.
Proof.
  revert l. induction old as [|x old IH]; intros l Hp Hc; [by apply elem_of_nil in Hc|].
  destruct l as [|y l]; [discriminate Hp|]. simpl in Hp.
  apply andb_true_iff in Hp as [Hxy Hp]. apply Ascii.eqb_eq in Hxy. subst y.
  apply elem_of_cons in Hc as [->|Hc]; [left|right]. by apply IH.
Qed.

Lemma is_prefix_app old l : is_prefix old (old ++ l) = true.
Proof.
  induction old as [|x old IH]; simpl; [reflexivity|].
  by rewrite Ascii.eqb_refl, IH.
Qed.

(** A text without one of the characters of [old] has no occurrence of it. *)
Lemma remove_from_absent old c text :
  c ∈ old → c ∉ text → remove_from old 0 text = text.
Proof.
  intros Hc. induction text as [|x text IH]; intros Hnot; [reflexivity|].
  simpl. destruct (is_prefix old (x :: text)) eqn:Hp.
  - destruct Hnot. by eapply is_prefix_elem.
  - rewrite IH; [reflexivity|]. intros Hin. apply Hnot. by right.
Qed.

Lemma remove_from_skip old l1 l2 :
  remove_from old (length l1) (l1 ++ l2) = remove_from old 0 l2.
Proof. induction l1 as [|x l1 IH]; simpl; [reflexivity | exact IH]. Qed.

Lemma remove_from_found old x r :
  is_prefix old (x :: r) = true →
  remove_from old 0 (x :: r) = remove_from old (length old - 1) r.
Proof. intros Hp. cbn [remove_from]. by rewrite Hp. Qed.

(** A symbol put in front of a text that lacks one of its characters is
    taken out again and leaves the text. *)
Lemma remove_all_prefix old c text :
  c ∈ list_ascii_of_string old → c ∉ list_ascii_of_string text →
  remove_all old (old +:+ text) = text.
Proof.
  intros Hc Hnot. unfold remove_all.
  destruct old as [|x old]; [by apply elem_of_nil in Hc|].
  rewrite chars_app.
  pose proof (is_prefix_app (list_ascii_of_string (String x old))
                (list_ascii_of_string text)) as Hp.
  simpl list_ascii_of_string in Hp at 1 2. simpl list_ascii_of_string at 1 2.
  change ((x :: list_ascii_of_string old) ++ list_ascii_of_string text)
    with (x :: (list_ascii_of_string old ++ list_ascii_of_string text)) in *.
  rewrite (remove_from_found _ _ _ Hp).
  cbn [length]. rewrite Nat.sub_1_r. cbn [Nat.pred].
  rewrite remove_from_skip, (remove_from_absent _ c) by assumption.
  apply string_of_list_ascii_of_string.
Qed.

Lemma plain_currency_absent currency x :
  plain_currency currency →
  ∃ c, c ∈ list_ascii_of_string currency ∧ c ∉ list_ascii_of_string (format_2f x).
Proof.
  intros (c & rest & -> & Hc). exists c. split; [left|].
  intros Hin. apply Hc. pose proof (format_2f_numeric x) as Hnum.
  rewrite Forall_forall in Hnum. by apply Hnum.
Qed.

(** For a plain currency symbol, what [process_payment] reads back from the
    panel is the two-decimal rounding of what [update_totals] computed. *)
Lemma shown_after_update_totals app :
  plain_currency (currency_symbol app) →
  let t := compute_totals (cart app) (discount_var app) (tax_percent app) in
  shown_total (update_totals app) = round2 (t_total t) ∧
  shown_subtotal (update_totals app) = round2 (t_subtotal t) ∧
  shown_discount (update_totals app) = round2 (t_discount t) ∧
  shown_tax (update_totals app) = round2 (t_tax t).
Proof.
  intros Hplain t.
  unfold shown_total, shown_subtotal, shown_discount, shown_tax, round2, update_totals.
  cbn [currency_symbol total_var subtotal_var discount_amount_var tax_var]. fold t.
  destruct (plain_currency_absent _ (t_total t) Hplain) as (c1 & Hc1 & Hn1).
  destruct (plain_currency_absent _ (t_subtotal t) Hplain) as (c2 & Hc2 & Hn2).
  destruct (plain_currency_absent _ (t_discount t) Hplain) as (c3 & Hc3 & Hn3).
  destruct (plain_currency_absent _ (t_tax t) Hplain) as (c4 & Hc4 & Hn4).
  rewrite (remove_all_prefix _ c1 (format_2f (t_total t)) Hc1 Hn1).
  rewrite (remove_all_prefix _ c2 (format_2f (t_subtotal t)) Hc2 Hn2).
  rewrite (remove_all_prefix _ c4 (format_2f (t_tax t)) Hc4 Hn4).
  change ("-" +:+ currency_symbol app +:+ format_2f (t_discount t))
    with (("-" +:+ currency_symbol app) +:+ format_2f (t_discount t)).
  rewrite (remove_all_prefix ("-" +:+ currency_symbol app) c3
             (format_2f (t_discount t))); [done | by right | assumption].
Qed.

(** After [update_totals] the four totals shown can be read back. *)
Lemma update_totals_readable app :
  plain_currency (currency_symbol app) →
  ∃ total subtotal discount tax,
    shown_total (update_totals app) = Some total ∧
    shown_subtotal (update_totals app) = Some subtotal ∧
    shown_discount (update_totals app) = Some discount ∧
    shown_tax (update_totals app) = Some tax.
Proof.
  intros Hplain.
  destruct (shown_after_update_totals app Hplain) as (-> & -> & -> & ->).
  destruct (round2_defined
              (t_total (compute_totals (cart app) (discount_var app) (tax_percent app))))
    as [total ->].
  destruct (round2_defined
              (t_subtotal (compute_totals (cart app) (discount_var app) (tax_percent app))))
    as [subtotal ->].
  destruct (round2_defined
              (t_discount (compute_totals (cart app) (discount_var app) (tax_percent app))))
    as [discount ->].
  destruct (round2_defined
              (t_tax (compute_totals (cart app) (discount_var app) (tax_percent app))))
    as [tax ->].
  eauto 10.
Qed.

(** ** The stock check *)

Lemma check_stock_passes prods cart :
  check_stock prods cart = None ↔ Forall (line_ok prods) cart.
Proof.
  induction cart as [|item rest IH]; simpl.
  - split; [constructor | reflexivity].
  - destruct (prods !! item_id item) as [row|] eqn:Hrow.
    + destruct (Z.ltb_spec (p_stock row) (item_qty item)) as [Hlt|Hge].
      * split; [discriminate|].
        intros Hall. inversion Hall as [|? ? (row' & Hrow' & Hle) _]; subst.
        rewrite Hrow in Hrow'. injection Hrow' as <-. lia.
      * rewrite IH. split.
        -- intros Hrest. constructor; [exists row; auto | exact Hrest].
        -- intros Hall. inversion Hall; assumption.
    + split; [discriminate|].
      intros Hall. inversion Hall as [|? ? (row' & Hrow' & _) _]; subst.
      rewrite Hrow in Hrow'. discriminate.
Qed.

(** The error of the check is that of the first line that fails it. *)
Lemma check_stock_first_failure prods cart e :
  check_stock prods cart = Some e →
  ∃ pre bad post,
    cart = pre ++ bad :: post ∧ Forall (line_ok prods) pre ∧
    ((prods !! item_id bad = None ∧ e = ProductNotFound (item_name bad)) ∨
     (∃ row, prods !! item_id bad = Some row ∧ p_stock row < item_qty bad ∧
             e = NotEnoughStock (item_name bad) (p_stock row) (item_qty bad))).
Proof.
  induction cart as [|item rest IH]; simpl; [discriminate|].
  destruct (prods !! item_id item) as [row|] eqn:Hrow.
  - destruct (Z.ltb_spec (p_stock row) (item_qty item)) as [Hlt|Hge].
    + intros [= <-]. exists [], item, rest. split_and!; [done | constructor |].
      right. exists row. auto.
    + intros Hrest. destruct (IH Hrest) as (pre & bad & post & -> & Hpre & Hbad).
      exists (item :: pre), bad, post. split_and!; [done | | done].
      constructor; [exists row; auto | exact Hpre].
  - intros [= <-]. exists [], item, rest. split_and!; [done | constructor |].
    left. auto.
Qed.

Lemma check_stock_fails prods cart item :
  item ∈ cart → ¬ line_ok prods item → is_Some (check_stock prods cart).
Proof.
  intros Hin Hbad. destruct (check_stock prods cart) eqn:Hc; [eauto|].
  apply check_stock_passes in Hc. rewrite Forall_forall in Hc.
  destruct (Hbad (Hc _ Hin)).
Qed.

Lemma over_stock_not_ok prods item : line_over_stock prods item → ¬ line_ok prods item.
Proof.
  intros (row & Hrow & Hlt) (row' & Hrow' & Hle).
  rewrite Hrow in Hrow'. injection Hrow' as <-. lia.
Qed.

(** A failed check is raised out of [save_sale] with nothing written. *)
Lemma save_sale_check_failed w db cart subtotal discount tax total paid
    payment_method cashier_name customer_id e :
  check_stock (products db) cart = Some e →
  save_sale w db cart subtotal discount tax total paid payment_method
    cashier_name customer_id = (inl e, db, (randint w).2).
Proof. intros Hc. unfold save_sale. simpl. rewrite Hc. reflexivity. Qed.

(** Whatever [save_sale] raises, the database is as it was. *)
Lemma save_sale_error_rolls_back w db cart subtotal discount tax total paid
    payment_method cashier_name customer_id e db' w' :
  save_sale w db cart subtotal discount tax total paid payment_method
    cashier_name customer_id = (inl e, db', w') →
  db' = db.
Proof.
  unfold save_sale. simpl.
  destruct (check_stock _ _); [congruence|].
  destruct (insert_sale _ _ _ _ _ _ _ _ _ _ _) as [message|[db1 sale_id]]; [congruence|].
  destruct (write_items _ _ _); congruence.
Qed.

(** A sale that fails leaves the application's cart and database alone. *)
Lemma complete_sale_failed app total paid_amount payment_method subtotal
    discount_amount tax_amount e db w :
  save_sale (world app) (database app) (cart app) subtotal discount_amount
    tax_amount total paid_amount payment_method (cashier_setting app) None
  = (inl e, db, w) →
  complete_sale app total paid_amount payment_method subtotal discount_amount
    tax_amount = (set_database app (database app) w, SaleFailed e).
Proof.
  intros Hs. unfold complete_sale. rewrite Hs.
  apply save_sale_error_rolls_back in Hs. subst db. reflexivity.
Qed.

(** ** Rejection by the stock check *)

(** C1, as stated, fails: a cart whose first line names a product that is
    not in the catalog and whose second line asks for 5 of a product with 3
    in stock is rejected with "Product Ghost not found", not with an
    insufficient-stock error. *)
Lemma insufficient_stock_counterexample :
  let cart := [ghost_line; water_line 5] in
  let db := shop 3 40 in
  (∃ item, item ∈ cart ∧ line_over_stock (products db) item) ∧
  (save_sale a_world db cart zero zero zero zero zero "Cash" "Admin" None).1.1
    = inl (ProductNotFound "Ghost") ∧
  ¬ ∃ name available requested,
      (save_sale a_world db cart zero zero zero zero zero "Cash" "Admin" None).1.1
      = inl (NotEnoughStock name available requested).
Proof.
  simpl. split_and!.
  - exists (water_line 5). split.
    + apply list_elem_of_In. right. left. reflexivity.
    + exists (water 3). split; [reflexivity | simpl; lia].
  - reflexivity.
  - intros (name & available & requested & H). vm_compute in H. discriminate H.
Qed.

(** C1, amended: a cart with a line that asks for more than the persisted
    stock of its product makes [save_sale] raise, with the database (sales,
    sale_items, every product's stock) as it was, and [complete_sale] leaves
    the cart as it was.  When every line of the cart refers to a product of
    the catalog, the error is the insufficient-stock error of the first line
    that asks too much, with its name, the stock available and the quantity
    asked. *)
Theorem insufficient_stock_rejected w db lines subtotal discount tax total paid
    payment_method cashier_name customer_id :
  (∃ item, item ∈ lines ∧ line_over_stock (products db) item) →
  ∃ e,
    save_sale w db lines subtotal discount tax total paid payment_method
      cashier_name customer_id = (inl e, db, (randint w).2) ∧
    (∀ app total' paid' method' subtotal' discount' tax',
       database app = db → cart app = lines →
       ∃ app', complete_sale app total' paid' method' subtotal' discount' tax'
               = (app', SaleFailed e) ∧
               cart app' = lines ∧ database app' = db) ∧
    ((∀ item, item ∈ lines → is_Some (products db !! item_id item)) →
     ∃ pre bad post row,
       lines = pre ++ bad :: post ∧ Forall (line_ok (products db)) pre ∧
       products db !! item_id bad = Some row ∧ p_stock row < item_qty bad ∧
       e = NotEnoughStock (item_name bad) (p_stock row) (item_qty bad)).
Proof.
  intros (item & Hin & Hover).
  destruct (check_stock_fails (products db) lines item Hin
              (over_stock_not_ok _ _ Hover)) as [e He].
  exists e. split_and!.
  - by apply save_sale_check_failed.
  - intros app total' paid' method' subtotal' discount' tax' Hdb Hcart.
    subst db lines.
    exists (set_database app (database app) (randint (world app)).2).
    split; [|split; reflexivity].
    apply complete_sale_failed with (db := database app).
    apply save_sale_check_failed. exact He.
  - intros Hall.
    destruct (check_stock_first_failure _ _ _ He)
      as (pre & bad & post & Heq & Hpre & [[Hnone _] | (row & Hrow & Hlt & ->)]).
    + destruct (Hall bad) as [row Hrow].
      * rewrite Heq. apply elem_of_app. right. left.
      * rewrite Hrow in Hnone. discriminate.
    + exists pre, bad, post, row. auto.
Qed.

Lemma insufficient_stock_rejected_witness :
  ∃ e,
    save_sale a_world (shop 3 40) [water_line 5] zero zero zero zero zero
      "Cash" "Admin" None = (inl e, shop 3 40, (randint a_world).2) ∧
    e = NotEnoughStock "Water" 3 5.
Proof.
  destruct (insufficient_stock_rejected a_world (shop 3 40) [water_line 5]
              zero zero zero zero zero "Cash" "Admin" None) as (e & Hs & _ & He).
  - exists (water_line 5). split.
    + apply list_elem_of_In. left. reflexivity.
    + exists (water 3). split; [reflexivity | simpl; lia].
  - exists e. split; [exact Hs|].
    destruct He as (pre & bad & post & row & Heq & _ & Hrow & _ & ->).
    + intros item Hitem. apply list_elem_of_In in Hitem.
      destruct Hitem as [<- | []]. exists (water 3). reflexivity.
    + destruct pre as [|x [|y pre]]; simpl in Heq; try discriminate Heq.
      injection Heq as <- <-. vm_compute in Hrow. injection Hrow as <-.
      reflexivity.
Defined.

(** Scenario B of the spec: the message of the rejection. *)
Example scenario_b_message :
  (save_sale a_world (shop 3 40) [water_line 5] zero zero zero zero zero
     "Cash" "Admin" None).1.1 = inl (NotEnoughStock "Water" 3 5) ∧
  error_message (NotEnoughStock "Water" 3 5)
  = "Not enough stock for Water. Available: 3, Requested: 5".
Proof. vm_compute. auto. Qed.

(** C10, as stated, fails: when a line that asks for 5 of a product with 3
    in stock comes before the line of the missing product, the error names
    the first product ("Not enough stock for Water"), not the missing one. *)
Lemma missing_product_counterexample :
  let cart := [water_line 5; ghost_line] in
  let db := shop 3 40 in
  (∃ item, item ∈ cart ∧ products db !! item_id item = None) ∧
  (save_sale a_world db cart zero zero zero zero zero "Cash" "Admin" None).1.1
    = inl (NotEnoughStock "Water" 3 5) ∧
  ¬ ∃ item, item ∈ cart ∧ products db !! item_id item = None ∧
      (save_sale a_world db cart zero zero zero zero zero "Cash" "Admin" None).1.1
      = inl (ProductNotFound (item_name item)).
Proof.
  simpl. split_and!.
  - exists ghost_line. split; [|reflexivity].
    apply list_elem_of_In. right. left. reflexivity.
  - reflexivity.
  - intros (item & _ & _ & H). vm_compute in H. discriminate H.
Qed.

(** C10, amended: a cart with a line whose product id is not in the products
    table makes [save_sale] raise before any write, the sales, sale_items and
    products tables being as they were.  When no line of the cart asks for
    more than the stock of its product, the error is "Product ... not found"
    with the snapshotted name of the first line whose product is missing. *)
Theorem missing_product_rejected w db cart subtotal discount tax total paid
    payment_method cashier_name customer_id :
  (∃ item, item ∈ cart ∧ products db !! item_id item = None) →
  ∃ e,
    save_sale w db cart subtotal discount tax total paid payment_method
      cashier_name customer_id = (inl e, db, (randint w).2) ∧
    ((∀ item, item ∈ cart → ¬ line_over_stock (products db) item) →
     ∃ pre bad post,
       cart = pre ++ bad :: post ∧ Forall (line_ok (products db)) pre ∧
       products db !! item_id bad = None ∧
       e = ProductNotFound (item_name bad)).
Proof.
  intros (item & Hin & Hnone).
  assert (Hbad : ¬ line_ok (products db) item).
  { intros (row & Hrow & _). rewrite Hrow in Hnone. discriminate. }
  destruct (check_stock_fails _ _ _ Hin Hbad) as [e He].
  exists e. split; [by apply save_sale_check_failed|].
  intros Hall.
  destruct (check_stock_first_failure _ _ _ He)
    as (pre & bad & post & Heq & Hpre & [[Hmiss ->] | (row & Hrow & Hlt & _)]).
  - exists pre, bad, post. auto.
  - destruct (Hall bad).
    + rewrite Heq. apply elem_of_app. right. left.
    + exists row. auto.
Qed.

Lemma missing_product_rejected_witness :
  ∃ e,
    save_sale a_world (shop 3 40) [water_line 2; ghost_line] zero zero zero
      zero zero "Cash" "Admin" None = (inl e, shop 3 40, (randint a_world).2).
Proof.
  destruct (missing_product_rejected a_world (shop 3 40)
              [water_line 2; ghost_line] zero zero zero zero zero "Cash"
              "Admin" None) as (e & Hs & _).
  - exists ghost_line. split; [|reflexivity].
    apply list_elem_of_In. right. left. reflexivity.
  - exists e. exact Hs.
Defined.

(** ** The writes of a sale *)

Lemma decrement_0 row : decrement 0 row = row.
Proof. destruct row. unfold decrement. simpl. f_equal. lia. Qed.

Lemma decrement_decrement a b row :
  decrement b (decrement a row) = decrement (a + b) row.
Proof. unfold decrement. simpl. f_equal. lia. Qed.

(** What the second loop leaves: the sales table alone, one sale_items row
    per line in cart order, every product down by what the cart asks of
    it. *)
Lemma write_items_spec sale_id lines : ∀ db db',
  write_items db sale_id lines = inr db' →
  sales db' = sales db ∧ sales_seq db' = sales_seq db ∧
  (∀ p, products db' !! p = decrement (demand p lines) <$> products db !! p) ∧
  ∃ rows, sale_items db' = sale_items db ++ rows ∧
          Forall2 (item_row_of sale_id) lines rows.
Proof.
  induction lines as [|item rest IH]; intros db db'; simpl.
  - intros [= <-]. split_and!; [done | done | | ].
    + intros p. destruct (products db !! p) as [row|]; simpl; [|done].
      by rewrite decrement_0.
    + exists []. split; [by rewrite app_nil_r | constructor].
  - unfold insert_sale_item.
    destruct (is_nan (item_price item)); [discriminate|].
    destruct (is_nan (mul _ _)); [discriminate|].
    destruct (sale_exists db sale_id && _); [|discriminate].
    intros Hw. apply IH in Hw as (Hsales & Hseq & Hprods & rows & Hitems & Hrows).
    simpl in *. split_and!; [done | done | | ].
    + intros p. rewrite Hprods, lookup_alter.
      destruct (decide (item_id item = p)) as [->|Hne].
      * destruct (products db !! p) as [row|]; simpl; [|done].
        by rewrite decrement_decrement.
      * done.
    + eexists (_ :: rows). split.
      * rewrite Hitems, <- app_assoc. reflexivity.
      * constructor; [|exact Hrows]. repeat split.
Qed.

(** After the stock check has passed, the second loop cannot fail. *)
Lemma write_items_succeeds sale_id lines : ∀ db,
  sale_exists db sale_id = true →
  Forall (λ item, is_Some (products db !! item_id item)) lines →
  Forall priced lines →
  ∃ db', write_items db sale_id lines = inr db'.
Proof.
  induction lines as [|item rest IH]; intros db Hsale Hall Hpriced; simpl; [eauto|].
  inversion Hall as [|? ? Hitem Hrest]; subst.
  inversion Hpriced as [|? ? [Hprice Htotal] Hpriced']; subst.
  unfold insert_sale_item. unfold line_total in Htotal. rewrite Hprice, Htotal.
  rewrite Hsale, bool_decide_eq_true_2 by exact Hitem.
  simpl. apply IH; [exact Hsale| |exact Hpriced']. simpl.
  eapply Forall_impl; [exact Hrest|]. intros other Hother. simpl.
  rewrite lookup_alter. destruct (decide _) as [->|]; [|exact Hother].
  destruct Hother as [row ->]. simpl. eauto.
Qed.

Lemma save_sale_success_inv w db lines subtotal discount tax total paid
    payment_method cashier_name customer_id sale_id receipt_number db' w' :
  save_sale w db lines subtotal discount tax total paid payment_method
    cashier_name customer_id = (inr (sale_id, receipt_number), db', w') →
  check_stock (products db) lines = None ∧
  receipt_number = make_receipt_number (clock w) (random_source w (random_used w)) ∧
  ∃ db1,
    insert_sale db receipt_number customer_id subtotal discount tax total paid
      (sub paid total) payment_method cashier_name = inr (db1, sale_id) ∧
    write_items db1 sale_id lines = inr db'.
Proof.
  unfold save_sale. simpl.
  destruct (check_stock _ _); [discriminate|].
  destruct (insert_sale _ _ _ _ _ _ _ _ _ _ _) as [message|[db1 sid]] eqn:Hins;
    [discriminate|].
  destruct (write_items _ _ _) as [message|db2] eqn:Hw; [discriminate|].
  intros [= <- <- <- <-]. split_and!; [done | done |]. exists db1. auto.
Qed.

Lemma insert_sale_spec db receipt_number customer_id subtotal discount tax total
    paid change payment_method cashier_name db1 sale_id :
  insert_sale db receipt_number customer_id subtotal discount tax total paid
    change payment_method cashier_name = inr (db1, sale_id) →
  (is_nan total = false ∧ is_nan paid = false ∧ is_nan change = false) ∧
  receipt_taken db receipt_number = false ∧
  products db1 = products db ∧ sale_items db1 = sale_items db ∧
  sales db1 = sales db ++
    [ {| s_id := sale_id; s_receipt_number := receipt_number;
         s_customer_id := customer_id; s_subtotal := subtotal;
         s_discount := discount; s_tax := tax; s_total := total;
         s_paid := paid; s_change_amount := change;
         s_payment_method := payment_method;
         s_cashier_name := cashier_name |} ].
Proof.
  unfold insert_sale.
  destruct (is_nan subtotal); [discriminate|].
  destruct (is_nan tax); [discriminate|].
  destruct (is_nan total); [discriminate|].
  destruct (is_nan paid); [discriminate|].
  destruct (is_nan change); [discriminate|].
  destruct (receipt_taken db receipt_number); [discriminate|].
  intros [= <- <-]. auto.
Qed.

(** A sale goes through as soon as the stock check passes, the receipt
    number is free and no amount is a NaN. *)
Lemma save_sale_succeeds w db lines subtotal discount tax total paid
    payment_method cashier_name customer_id :
  Forall (line_ok (products db)) lines →
  Forall priced lines →
  is_nan subtotal = false → is_nan tax = false → is_nan total = false →
  is_nan paid = false → is_nan (sub paid total) = false →
  receipt_taken db (make_receipt_number (clock w) (random_source w (random_used w)))
    = false →
  ∃ sale_id db',
    save_sale w db lines subtotal discount tax total paid payment_method
      cashier_name customer_id
    = (inr (sale_id, make_receipt_number (clock w) (random_source w (random_used w))),
       db', (randint w).2).
Proof.
  intros Hok Hpriced Hsub Htax Htotal Hpaid Hchange Hfree. unfold save_sale. simpl.
  rewrite (proj2 (check_stock_passes _ _) Hok).
  unfold insert_sale. rewrite Hsub, Htax, Htotal, Hpaid, Hchange, Hfree.
  match goal with |- context [write_items ?d ?s lines] =>
    destruct (write_items_succeeds s lines d) as [db' Hw] end.
  - unfold sale_exists. simpl. rewrite existsb_app. simpl.
    rewrite Z.eqb_refl. by rewrite orb_true_r.
  - simpl. eapply Forall_impl; [exact Hok|]. intros item (row & Hrow & _). eauto.
  - exact Hpriced.
  - rewrite Hw. eauto.
Qed.

(** ** Sums over the products of a cart *)

Lemma sum_Z_cons x l : sum_Z (x :: l) = x + sum_Z l.
Proof. reflexivity. Qed.

Lemma sum_Z_add {A} (f g : A → Z) l :
  sum_Z ((λ x, f x + g x) <$> l) = sum_Z (f <$> l) + sum_Z (g <$> l).
Proof.
  induction l as [|x l IH]; [reflexivity|].
  rewrite !fmap_cons, !sum_Z_cons, IH. lia.
Qed.

Lemma sum_Z_absent (x q : Z) ps :
  x ∉ ps → sum_Z ((λ p, if decide (x = p) then q else 0) <$> ps) = 0.
Proof.
  induction ps as [|p ps IH]; [reflexivity|].
  rewrite not_elem_of_cons. intros [Hne Hnot].
  rewrite fmap_cons, sum_Z_cons, IH by exact Hnot.
  rewrite decide_False by exact Hne. reflexivity.
Qed.

Lemma sum_Z_once (x q : Z) ps :
  NoDup ps → x ∈ ps → sum_Z ((λ p, if decide (x = p) then q else 0) <$> ps) = q.
Proof.
  induction ps as [|p ps IH]; [intros _ []%elem_of_nil|].
  rewrite NoDup_cons, elem_of_cons. intros [Hnot Hnd] Hin.
  rewrite fmap_cons, sum_Z_cons.
  destruct (decide (x = p)) as [->|Hne].
  - rewrite sum_Z_absent by exact Hnot. lia.
  - destruct Hin as [?|Hin]; [done|]. rewrite IH by assumption. lia.
Qed.

(** Adding up, product by product, what a cart asks is adding up its lines. *)
Lemma demand_total lines ps :
  NoDup ps → (∀ item, item ∈ lines → item_id item ∈ ps) →
  sum_Z ((λ p, demand p lines) <$> ps) = sum_Z (item_qty <$> lines).
Proof.
  intros Hnd. induction lines as [|item rest IH]; intros Hin.
  - simpl demand. clear. induction ps as [|p ps IHps]; [reflexivity|].
    rewrite fmap_cons, sum_Z_cons, IHps. reflexivity.
  - simpl demand.
    rewrite (sum_Z_add (λ p, if decide (item_id item = p) then item_qty item else 0)
               (λ p, demand p rest)).
    rewrite sum_Z_once; [| exact Hnd | apply Hin; left].
    rewrite IH; [reflexivity|]. intros other Hother. apply Hin. by right.
Qed.

Lemma demand_single pre item post :
  (∀ other, other ∈ pre ++ post → item_id other ≠ item_id item) →
  demand (item_id item) (pre ++ item :: post) = item_qty item.
Proof.
  assert (Hzero : ∀ l, (∀ other, other ∈ l → item_id other ≠ item_id item) →
                       demand (item_id item) l = 0).
  { induction l as [|x l IH]; intros Hl; simpl; [reflexivity|].
    rewrite decide_False by (apply Hl; left).
    rewrite IH; [reflexivity|]. intros other Hother. apply Hl. by right. }
  intros Hothers. induction pre as [|x pre IH]; simpl.
  - rewrite decide_True by reflexivity. rewrite Hzero; [lia|].
    intros other Hother. apply Hothers. exact Hother.
  - rewrite decide_False by (apply Hothers; left).
    rewrite IH; [reflexivity|]. intros other Hother. apply Hothers. by right.
Qed.

Lemma demand_absent p lines :
  (∀ item, item ∈ lines → item_id item ≠ p) → demand p lines = 0.
Proof.
  induction lines as [|x l IH]; intros Hl; simpl; [reflexivity|].
  rewrite decide_False by (apply Hl; left).
  rewrite IH; [reflexivity|]. intros other Hother. apply Hl. by right.
Qed.

Lemma item_rows_quantities sale_id lines rows :
  Forall2 (item_row_of sale_id) lines rows →
  si_quantity <$> rows = item_qty <$> lines.
Proof.
  induction 1 as [|item row lines rows (_ & _ & Hq & _) _ IH]; [reflexivity|].
  rewrite !fmap_cons, Hq, IH. reflexivity.
Qed.

(** ** Stock conservation *)

Lemma save_sale_stock w db lines subtotal discount tax total paid
    payment_method cashier_name customer_id sale_id receipt_number db' w' :
  save_sale w db lines subtotal discount tax total paid payment_method
    cashier_name customer_id = (inr (sale_id, receipt_number), db', w') →
  ∀ p, stock_of db' p = stock_of db p - demand p lines.
Proof.
  intros Hs p.
  apply save_sale_success_inv in Hs as (Hcheck & _ & db1 & Hins & Hw).
  apply insert_sale_spec in Hins as (_ & _ & Hprods & _ & _).
  apply write_items_spec in Hw as (_ & _ & Hstock & _).
  unfold stock_of. rewrite Hstock, Hprods.
  destruct (products db !! p) as [row|] eqn:Hrow; simpl; [reflexivity|].
  rewrite demand_absent; [reflexivity|].
  intros item Hitem Heq. apply check_stock_passes in Hcheck.
  rewrite Forall_forall in Hcheck. destruct (Hcheck _ Hitem) as (row & Hrow' & _).
  rewrite Heq, Hrow in Hrow'. discriminate.
Qed.

(** C2: a sale that goes through inserts one sale_items row per cart line,
    in cart order, carrying the sale, the product, the quantity, the unit
    price and, as total price, quantity times unit price; it takes from every
    product the quantity the cart asks of it, which for a product that one
    line refers to is exactly that line's quantity; and over the products the
    cart refers to, the stock taken adds up to the quantities of the rows
    inserted. *)
Theorem stock_conservation w db lines subtotal discount tax total paid
    payment_method cashier_name customer_id sale_id receipt_number db' w' :
  save_sale w db lines subtotal discount tax total paid payment_method
    cashier_name customer_id = (inr (sale_id, receipt_number), db', w') →
  ∃ rows,
    sale_items db' = sale_items db ++ rows ∧
    length rows = length lines ∧
    Forall2 (item_row_of sale_id) lines rows ∧
    (∀ p, stock_of db' p = stock_of db p - demand p lines) ∧
    (∀ pre item post,
       lines = pre ++ item :: post →
       (∀ other, other ∈ pre ++ post → item_id other ≠ item_id item) →
       stock_of db' (item_id item) = stock_of db (item_id item) - item_qty item) ∧
    sum_Z ((λ p, stock_of db p - stock_of db' p) <$> referenced lines)
    = sum_Z (si_quantity <$> rows).
Proof.
  intros Hs. pose proof (save_sale_stock _ _ _ _ _ _ _ _ _ _ _ _ _ _ _ Hs) as Hstock.
  apply save_sale_success_inv in Hs as (_ & _ & db1 & Hins & Hw).
  apply insert_sale_spec in Hins as (_ & _ & _ & Hitems1 & _).
  apply write_items_spec in Hw as (_ & _ & _ & rows & Hitems & Hrows).
  exists rows. split_and!.
  - by rewrite Hitems, Hitems1.
  - symmetry. by eapply Forall2_length.
  - exact Hrows.
  - exact Hstock.
  - intros pre item post -> Hothers. rewrite Hstock, demand_single by exact Hothers.
    reflexivity.
  - rewrite (item_rows_quantities _ _ _ Hrows).
    rewrite <- (demand_total lines (referenced lines)).
    + f_equal. apply list_fmap_ext. intros _ p _. rewrite Hstock. lia.
    + apply NoDup_remove_dups.
    + intros item Hitem. apply elem_of_remove_dups. by apply list_elem_of_fmap_2.
Qed.

(** Scenario D of the spec: one line, 2 of a product with 50 in stock. *)
Lemma stock_conservation_witness :
  ∃ rows,
    sale_items (save_sale a_world (shop 50 40) [water_line 2] (of_Z 3) zero
                  zero (of_Z 3) (of_Z 3) "Cash" "Admin" None).1.2
    = [] ++ rows ∧
    length rows = 1%nat ∧
    stock_of (save_sale a_world (shop 50 40) [water_line 2] (of_Z 3) zero
                zero (of_Z 3) (of_Z 3) "Cash" "Admin" None).1.2 1 = 50 - 2.
Proof.
  destruct (stock_conservation a_world (shop 50 40) [water_line 2] (of_Z 3)
              zero zero (of_Z 3) (of_Z 3) "Cash" "Admin" None 1
              "R17000000001234"
              (save_sale a_world (shop 50 40) [water_line 2] (of_Z 3) zero
                 zero (of_Z 3) (of_Z 3) "Cash" "Admin" None).1.2
              (randint a_world).2)
    as (rows & Hitems & Hlen & _ & _ & Hone & _).
  - vm_compute. reflexivity.
  - exists rows. split_and!; [exact Hitems | exact Hlen |].
    apply (Hone [] (water_line 2) []); [reflexivity|].
    intros other []%elem_of_nil.
Defined.

(** ** The stock invariant *)

(** C8 fails on the code: with 3 of a product in stock, a cart with two
    lines of 2 of that product passes the check, which compares every line
    with the persisted stock on its own, and the two updates leave the stock
    at -1. *)
Theorem repeated_product_drives_stock_negative :
  let result := save_sale a_world (shop 3 40) [water_line 2; water_line 2]
                  (of_Z 6) zero zero (of_Z 6) (of_Z 6) "Cash" "Admin" None in
  result.1.1 = inr (1, "R17000000001234") ∧
  stock_of (shop 3 40) 1 = 3 ∧
  stock_of result.1.2 1 = -1.
Proof. vm_compute. auto. Qed.

(** For a cart that refers to every product at most once the invariant
    holds: each product it refers to ends with its stock at 0 or more. *)
Lemma distinct_products_keep_stock w db lines subtotal discount tax total paid
    payment_method cashier_name customer_id sale_id receipt_number db' w' :
  NoDup (item_id <$> lines) →
  save_sale w db lines subtotal discount tax total paid payment_method
    cashier_name customer_id = (inr (sale_id, receipt_number), db', w') →
  ∀ item, item ∈ lines → 0 ≤ stock_of db' (item_id item).
Proof.
  intros Hnd Hs item Hitem.
  pose proof (save_sale_stock _ _ _ _ _ _ _ _ _ _ _ _ _ _ _ Hs) as Hstock.
  apply save_sale_success_inv in Hs as (Hcheck & _).
  apply check_stock_passes in Hcheck. rewrite Forall_forall in Hcheck.
  destruct (Hcheck _ Hitem) as (row & Hrow & Hle).
  destruct (list_elem_of_split _ _ Hitem) as (pre & post & ->).
  rewrite Hstock, demand_single.
  - unfold stock_of. rewrite Hrow. simpl. lia.
  - rewrite fmap_app, fmap_cons in Hnd.
    apply NoDup_app in Hnd as (_ & Hpre & Hpost).
    apply NoDup_cons in Hpost as [Hpost _].
    intros other [Hother|Hother]%elem_of_app Heq.
    + apply (Hpre (item_id other)); [by apply list_elem_of_fmap_2|].
      rewrite Heq. left.
    + apply Hpost. rewrite <- Heq. by apply list_elem_of_fmap_2.
Qed.

(** ** Receipt numbers *)

(** C7, as stated, fails: the first number drawn is taken, the next draw
    would give a free one, and [save_sale] raises on the failed insert after
    a single draw. *)
Lemma receipt_collision_counterexample :
  let first := make_receipt_number (clock a_world) (random_source a_world 0) in
  let second := make_receipt_number (clock a_world) (random_source a_world 1) in
  let result := save_sale a_world shop_with_sale [water_line 1] (of_Z 2) zero
                  zero (of_Z 2) (of_Z 2) "Cash" "Admin" None in
  receipt_taken shop_with_sale first = true ∧
  receipt_taken shop_with_sale second = false ∧
  result.1 = (inl (DatabaseError "UNIQUE constraint failed: sales.receipt_number"),
              shop_with_sale) ∧
  random_used result.2 = 1%nat.
Proof. vm_compute. auto. Qed.

(** C7, amended: when the receipt number generated collides with that of an
    existing sales row, [save_sale] does not generate another one: for a cart
    that passes the stock check and amounts that are numbers the insert
    fails, the transaction is rolled back, and the collision is raised at this
    first attempt as "Database error: UNIQUE constraint failed:
    sales.receipt_number", after one draw of the random generator and with
    the database as it was. *)
Theorem receipt_collision_not_retried w db lines subtotal discount tax total
    paid payment_method cashier_name customer_id :
  Forall (line_ok (products db)) lines →
  is_nan subtotal = false → is_nan tax = false → is_nan total = false →
  is_nan paid = false → is_nan (sub paid total) = false →
  receipt_taken db (make_receipt_number (clock w) (random_source w (random_used w)))
    = true →
  save_sale w db lines subtotal discount tax total paid payment_method
    cashier_name customer_id
  = (inl (DatabaseError "UNIQUE constraint failed: sales.receipt_number"), db,
     (randint w).2) ∧
  random_used (randint w).2 = S (random_used w).
Proof.
  intros Hok Hsub Htax Htotal Hpaid Hchange Htaken. split; [|reflexivity].
  unfold save_sale. simpl. rewrite (proj2 (check_stock_passes _ _) Hok).
  unfold insert_sale. rewrite Hsub, Htax, Htotal, Hpaid, Hchange, Htaken.
  reflexivity.
Qed.

Lemma receipt_collision_not_retried_witness :
  save_sale a_world shop_with_sale [water_line 1] (of_Z 2) zero zero (of_Z 2)
    (of_Z 2) "Cash" "Admin" None
  = (inl (DatabaseError "UNIQUE constraint failed: sales.receipt_number"),
     shop_with_sale, (randint a_world).2) ∧
  random_used (randint a_world).2 = S (random_used a_world).
Proof.
  apply (receipt_collision_not_retried a_world shop_with_sale [water_line 1]);
    [|reflexivity ..].
  constructor; [|constructor]. exists (water 50). split; [reflexivity | simpl; lia].
Defined.

(** ** The discount *)




(** A percentage between 0 and 100 gives that share of the subtotal. *)
Lemma percentage_discount text subtotal percentage :
  ends_with_percent text = true →
  float_of_string (drop_last text) = Some percentage →
  ltb percentage (of_Z 0) = false →
  ltb (of_Z 100) percentage = false →
  parse_discount text subtotal = mul subtotal (div percentage (of_Z 100)).
Proof.
  intros Hpct Hparse Hlo Hhi. unfold parse_discount.
  destruct (String.eqb_spec text "") as [->|_]; [discriminate Hpct|].
  rewrite Hpct, Hparse, Hlo, Hhi. reflexivity.
Qed.

(** Scenario E of the spec: a malformed discount counts as no discount. *)
Lemma malformed_discount subtotal : parse_discount "abc" subtotal = zero.
Proof. reflexivity. Qed.

(** A percentage out of range counts as no discount. *)
Lemma percentage_out_of_range subtotal : parse_discount "150%" subtotal = zero.
Proof. reflexivity. Qed.

(** ** Scenario A *)

(** C9, as stated, fails: the total shown, and read back for the sale, is
    not 4.73. *)
Lemma scenario_a_counterexample :
  total_var scenario_a_app ≠ "PKR4.73" ∧
  shown_total scenario_a_app ≠ float_of_string "4.73".
Proof. vm_compute. split; discriminate. Qed.

(** C9, amended: for the cart of scenario A with discount "10%" and tax 5,
    [update_totals] shows, and [process_payment] reads back for the sale,
    subtotal 5.00, discount 0.50, tax 0.23 and total 4.72: the tax is the
    binary64 number nearest to 0.225, which lies above it, and the total is
    the binary64 sum 4.5 + 0.225, which lies below 4.725. *)
Theorem scenario_a_totals :
  let t := compute_totals scenario_a_cart "10%" (of_Z 5) in
  let app := scenario_a_app in
  subtotal_var app = "PKR5.00" ∧ discount_amount_var app = "-PKR0.50" ∧
  tax_var app = "PKR0.23" ∧ total_var app = "PKR4.72" ∧
  shown_subtotal app = float_of_string "5.00" ∧
  shown_discount app = float_of_string "0.50" ∧
  shown_tax app = float_of_string "0.23" ∧
  shown_total app = float_of_string "4.72" ∧
  t_tax t = of_ratio false 225 1000 ∧
  t_total t = S754_finite false 5319877059831398 (-50) ∧
  5319877059831398 * 1000 < 4725 * 2 ^ 50.
Proof. vm_compute. split_and!; reflexivity. Qed.

(** ** The checkout *)

Lemma payment_dialog_accepts total_amount events paid payment_method :
  payment_dialog total_amount events = Some (paid, payment_method) →
  ltb paid total_amount = false ∧ PressProcess paid payment_method ∈ events.
Proof.
  induction events as [|[offered method|] rest IH]; simpl; [discriminate| |discriminate].
  unfold EnhancedPaymentDialog.process_payment.
  destruct (ltb offered total_amount) eqn:Hlt.
  - intros Hrest. destruct (IH Hrest) as [Hge Hin]. split; [exact Hge | by right].
  - intros [= <- <-]. split; [exact Hlt | left].
Qed.

Lemma payment_dialog_declines total_amount events :
  (∀ paid payment_method,
     PressProcess paid payment_method ∈ events → ltb paid total_amount = true) →
  payment_dialog total_amount events = None.
Proof.
  induction events as [|[offered method|] rest IH]; intros Hlow; simpl;
    [reflexivity| |reflexivity].
  unfold EnhancedPaymentDialog.process_payment. rewrite (Hlow offered method) by left.
  apply IH. intros paid payment_method Hin. apply (Hlow paid payment_method). by right.
Qed.

(** The sales row of a sale that went through. *)
Lemma save_sale_row w db lines subtotal discount tax total paid payment_method
    cashier_name customer_id sale_id receipt_number db' w' :
  save_sale w db lines subtotal discount tax total paid payment_method
    cashier_name customer_id = (inr (sale_id, receipt_number), db', w') →
  sales db' = sales db ++
    [ {| s_id := sale_id; s_receipt_number := receipt_number;
         s_customer_id := customer_id; s_subtotal := subtotal;
         s_discount := discount; s_tax := tax; s_total := total;
         s_paid := paid; s_change_amount := sub paid total;
         s_payment_method := payment_method;
         s_cashier_name := cashier_name |} ].
Proof.
  intros Hs. apply save_sale_success_inv in Hs as (_ & _ & db1 & Hins & Hw).
  apply insert_sale_spec in Hins as (_ & _ & _ & _ & Hsales).
  apply write_items_spec in Hw as (Hsame & _). by rewrite Hsame.
Qed.

(** The amounts of a sale that went through are numbers. *)
Lemma save_sale_numbers w db lines subtotal discount tax total paid
    payment_method cashier_name customer_id sale_id receipt_number db' w' :
  save_sale w db lines subtotal discount tax total paid payment_method
    cashier_name customer_id = (inr (sale_id, receipt_number), db', w') →
  is_nan total = false ∧ is_nan paid = false ∧ is_nan (sub paid total) = false.
Proof.
  intros Hs. apply save_sale_success_inv in Hs as (_ & _ & db1 & Hins & _).
  by apply insert_sale_spec in Hins as (Hnumbers & _).
Qed.

Lemma complete_sale_completed app total paid_amount payment_method subtotal
    discount_amount tax_amount app' sale_id receipt_number :
  complete_sale app total paid_amount payment_method subtotal discount_amount
    tax_amount = (app', SaleCompleted sale_id receipt_number) →
  ∃ db' w',
    save_sale (world app) (database app) (cart app) subtotal discount_amount
      tax_amount total paid_amount payment_method (cashier_setting app) None
    = (inr (sale_id, receipt_number), db', w') ∧
    database app' = db' ∧ cart app' = [].
Proof.
  unfold complete_sale.
  destruct (save_sale _ _ _ _ _ _ _ _ _ _ _) as [[[e|[sid rn]] db'] w'] eqn:Hs;
    [discriminate|].
  intros [= <- <- <-]. exists db', w'. auto.
Qed.

(** A checkout that completes a sale has read the four totals, had a payment
    accepted by the dialog, and saved the sale with these. *)
Lemma checkout_completed app events app' sale_id receipt_number :
  checkout app events = (app', SaleCompleted sale_id receipt_number) →
  ∃ total subtotal discount tax paid payment_method db' w',
    shown_total app = Some total ∧
    shown_subtotal app = Some subtotal ∧
    shown_discount app = Some discount ∧
    shown_tax app = Some tax ∧
    payment_dialog total events = Some (paid, payment_method) ∧
    save_sale (world app) (database app) (cart app) subtotal discount tax total
      paid payment_method (cashier_setting app) None
    = (inr (sale_id, receipt_number), db', w') ∧
    database app' = db' ∧ cart app' = [].
Proof.
  unfold checkout, process_payment.
  destruct (cart app) as [|first rest] eqn:Hcart; [discriminate|].
  destruct (shown_total app) as [total|]; [|discriminate].
  destruct (shown_subtotal app) as [subtotal|]; [|discriminate].
  destruct (shown_discount app) as [discount|]; [|discriminate].
  destruct (shown_tax app) as [tax|]; [|discriminate].
  destruct (payment_dialog total events) as [[paid method]|] eqn:Hdialog; [|discriminate].
  intros Hc. apply complete_sale_completed in Hc as (db' & w' & Hs & Hdb & Hempty).
  rewrite Hcart in Hs.
  exists total, subtotal, discount, tax, paid, method, db', w'. split_and!; done.
Qed.

(** ** The amounts of a persisted sale *)




(** ** Payment *)

(** C5, as stated, fails: [save_sale] given 4.00 paid against a total of
    4.72 (scenario C of the spec) raises nothing and persists the sale, with
    a change below zero. *)
Lemma insufficient_payment_counterexample :
  let total := of_decimal false 472 (-2) in
  let paid := of_Z 4 in
  let result := save_sale a_world (shop 50 40) scenario_a_cart (of_Z 5)
                  (of_decimal false 50 (-2)) (of_decimal false 23 (-2)) total
                  paid "Cash" "Admin" None in
  ltb paid total = true ∧
  result.1.1 = inr (1, "R17000000001234") ∧
  ∃ row, sales result.1.2 = [row] ∧ s_paid row = paid ∧ s_total row = total ∧
         ltb (s_change_amount row) zero = true.
Proof.
  cbv zeta. split_and!; [vm_compute; reflexivity ..|]. only_row.
  split_and!; vm_compute; reflexivity.
Qed.

(** C5, amended: the amount paid is checked by the payment dialog, before
    [save_sale] is called, and not by [save_sale], which stores paid - total
    as the change whatever its sign.  In a checkout, when every amount the
    operator offers is below the total shown, the dialog accepts none of them
    and the checkout ends with no sale: the application, its cart and the
    database are as they were.  Consequently a sale that a checkout persists
    has an amount paid of at least its total, and as its change
    paid - total, which is 0 or more.  The total and the amounts offered are
    binary64 numbers in canonical form. *)
Theorem payment_checked_by_dialog app events total :
  shown_total app = Some total →
  valid total →
  (∀ paid payment_method, PressProcess paid payment_method ∈ events → valid paid) →
  ((∀ paid payment_method,
      PressProcess paid payment_method ∈ events → ltb paid total = true) →
   (checkout app events).1 = app ∧
   ∀ sale_id receipt_number,
     (checkout app events).2 ≠ SaleCompleted sale_id receipt_number) ∧
  (∀ app' sale_id receipt_number,
     checkout app events = (app', SaleCompleted sale_id receipt_number) →
     ∃ row,
       sales (database app') = sales (database app) ++ [row] ∧
       s_total row = total ∧
       leb (s_total row) (s_paid row) = true ∧
       s_change_amount row = sub (s_paid row) (s_total row) ∧
       leb zero (s_change_amount row) = true).
Proof.
  intros Htotal Hvalid Hoffers. split.
  - intros Hlow. unfold checkout, process_payment. rewrite Htotal.
    rewrite (payment_dialog_declines total events Hlow).
    destruct (cart app); [split; [reflexivity | discriminate]|].
    destruct (shown_subtotal app), (shown_discount app), (shown_tax app);
      (split; [reflexivity | discriminate]).
  - intros app' sale_id receipt_number Hc.
    apply checkout_completed in Hc
      as (total' & subtotal & discount & tax & paid & method & db' & w'
          & Htotal' & _ & _ & _ & Hdialog & Hs & Hdb & _).
    rewrite Htotal in Htotal'. injection Htotal' as <-.
    pose proof (save_sale_numbers _ _ _ _ _ _ _ _ _ _ _ _ _ _ _ Hs)
      as (Hntotal & Hnpaid & Hnchange).
    apply save_sale_row in Hs. apply payment_dialog_accepts in Hdialog as [Hge Hin].
    eexists. split_and!.
    + rewrite Hdb, Hs. reflexivity.
    + reflexivity.
    + simpl. by apply not_below_is_at_least.
    + reflexivity.
    + simpl. apply not_negative_number; [exact Hnchange|].
      apply sub_not_negative; [by eapply Hoffers | exact Hvalid | exact Hge].
Qed.

(** Scenario C of the spec: 4.00 offered against 4.72, then the dialog is
    cancelled. *)
Lemma payment_checked_by_dialog_witness :
  (checkout scenario_a_app [PressProcess (of_Z 4) "Cash"; PressCancel]).1
  = scenario_a_app.
Proof.
  destruct (payment_checked_by_dialog scenario_a_app
              [PressProcess (of_Z 4) "Cash"; PressCancel]
              (of_decimal false 472 (-2))) as [Hdeclined _].
  - vm_compute. reflexivity.
  - vm_compute. reflexivity.
  - intros paid method Hin.
    apply list_elem_of_In in Hin. destruct Hin as [Hin | [Hin | []]].
    + injection Hin as <- <-. vm_compute. reflexivity.
    + discriminate Hin.
  - apply Hdeclined. intros paid method Hin.
    apply list_elem_of_In in Hin. destruct Hin as [Hin | [Hin | []]].
    + injection Hin as <- <-. vm_compute. reflexivity.
    + discriminate Hin.
Defined.

(** ** The empty cart *)

(** C6, as stated, fails: [save_sale] called with an empty cart raises
    nothing and inserts a sales row. *)
Lemma empty_cart_counterexample :
  let result := save_sale a_world (shop 50 40) [] zero zero zero zero zero
                  "Cash" "Admin" None in
  result.1.1 = inr (1, "R17000000001234") ∧
  sales (shop 50 40) = [] ∧
  length (sales result.1.2) = 1%nat.
Proof. vm_compute. auto. Qed.

(** C6, amended: the empty cart is stopped by the callers of [save_sale]
    and not by [save_sale]: with an empty cart [checkout] reports that the
    cart is empty and [process_payment] returns at once, neither opens the
    payment dialog nor calls [save_sale], and the application and the
    database (no sales row, no sale_items row, no stock change) are as they
    were. *)
Theorem empty_cart_stopped_at_checkout app events :
  cart app = [] →
  checkout app events = (app, CartEmpty) ∧
  process_payment app events = (app, CartEmpty).
Proof. intros Hempty. unfold checkout, process_payment. rewrite Hempty. auto. Qed.

Lemma empty_cart_stopped_at_checkout_witness :
  checkout (an_app [] "0" 5 (shop 50 40)) [PressProcess (of_Z 5) "Cash"]
  = (an_app [] "0" 5 (shop 50 40), CartEmpty) ∧
  process_payment (an_app [] "0" 5 (shop 50 40)) [PressProcess (of_Z 5) "Cash"]
  = (an_app [] "0" 5 (shop 50 40), CartEmpty).
Proof.
  apply (empty_cart_stopped_at_checkout (an_app [] "0" 5 (shop 50 40))).
  vm_compute. reflexivity.
Defined.

(** ** The quantity dialog *)

Lemma quantity_dialog_sign events : ∀ qty result,
  quantity_dialog qty events = Some result → result = 0 ∨ 1 ≤ result.
Proof.
  induction events as [|[| | |[]|] rest IH]; intros qty result; simpl;
    try discriminate; try (by apply IH).
  - unfold QuantityEditDialog.save_quantity.
    destruct (Z.leb_spec qty 0); [by apply IH|]. intros [= <-]. right. lia.
  - intros [= <-]. by left.
Qed.

(** X1: whatever the operator does in the quantity dialog, it closes with
    no result, with 0, and then "Remove" was pressed and confirmed, or with
    a quantity of 1 or more, and then "Save" was pressed: never with a
    quantity below zero. *)
Theorem quantity_dialog_result events : ∀ qty result,
  quantity_dialog qty events = Some result →
  (result = 0 ∧ PressRemove true ∈ events) ∨ (1 ≤ result ∧ PressSave ∈ events).
Proof.
  induction events as [|[| | |[]|] rest IH]; intros qty result; simpl;
    try discriminate.
  1, 2, 5: intros H; destruct (IH _ _ H) as [[? ?]|[? ?]];
    [left | right]; (split; [assumption | by right]).
  - unfold QuantityEditDialog.save_quantity.
    destruct (Z.leb_spec qty 0) as [Hle|Hgt].
    + intros H; destruct (IH _ _ H) as [[? ?]|[? ?]];
        [left | right]; (split; [assumption | by right]).
    + intros [= <-]. right. split; [lia | left].
  - intros [= <-]. left. split; [reflexivity | left].
Qed.

Lemma quantity_dialog_result_witness :
  quantity_dialog 2 [PressMinus; PressMinus; PressMinus; PressSave] = Some 1 ∧
  ((1 = 0 ∧ PressRemove true ∈ [PressMinus; PressMinus; PressMinus; PressSave]) ∨
   (1 ≤ 1 ∧ PressSave ∈ [PressMinus; PressMinus; PressMinus; PressSave])).
Proof.
  split; [reflexivity|].
  apply (quantity_dialog_result [PressMinus; PressMinus; PressMinus; PressSave] 2 1).
  reflexivity.
Defined.

Lemma plus_presses n : ∀ qty rest,
  quantity_dialog qty (replicate n PressPlus ++ rest)
  = quantity_dialog (qty + Z.of_nat n) rest.
Proof.
  induction n as [|n IH]; intros qty rest.
  - simpl. f_equal. lia.
  - cbn [replicate app quantity_dialog]. rewrite IH.
    unfold QuantityEditDialog.increase_qty. f_equal. lia.
Qed.

Lemma minus_presses n : ∀ qty rest,
  1 ≤ qty - Z.of_nat n →
  quantity_dialog qty (replicate n PressMinus ++ rest)
  = quantity_dialog (qty - Z.of_nat n) rest.
Proof.
  induction n as [|n IH]; intros qty rest Hn.
  - simpl. f_equal. lia.
  - cbn [replicate app quantity_dialog]. unfold QuantityEditDialog.decrease_qty.
    destruct (Z.ltb_spec 1 qty); [|lia]. rewrite IH by lia. f_equal. lia.
Qed.

(** X2: the quantity dialog has no upper limit and does not look at the
    stock: whatever the quantity of the line, every quantity of 0 or more is
    the result of some presses of its buttons. *)
Theorem quantity_dialog_reaches qty target :
  0 ≤ target → ∃ events, quantity_dialog qty events = Some target.
Proof.
  intros Htarget. destruct (decide (target = 0)) as [->|Hpos].
  { exists [PressRemove true]. reflexivity. }
  destruct (decide (qty ≤ target)) as [Hup|Hdown].
  - exists (replicate (Z.to_nat (target - qty)) PressPlus ++ [PressSave]).
    rewrite plus_presses. simpl. unfold QuantityEditDialog.save_quantity.
    destruct (Z.leb_spec (qty + Z.of_nat (Z.to_nat (target - qty))) 0); [lia|]. f_equal. lia.
  - exists (replicate (Z.to_nat (qty - target)) PressMinus ++ [PressSave]).
    rewrite minus_presses by lia. simpl. unfold QuantityEditDialog.save_quantity.
    destruct (Z.leb_spec (qty - Z.of_nat (Z.to_nat (qty - target))) 0); [lia|]. f_equal. lia.
Qed.

Lemma quantity_dialog_reaches_witness :
  ∃ events, quantity_dialog 2 events = Some 7.
Proof. apply (quantity_dialog_reaches 2 7). lia. Defined.

(** ** Adding to the cart *)

Lemma demand_app p l1 l2 : demand p (l1 ++ l2) = demand p l1 + demand p l2.
Proof. induction l1 as [|x l1 IH]; simpl; [reflexivity|]. rewrite IH. lia. Qed.

Lemma demand_not_referenced p lines : p ∉ item_id <$> lines → demand p lines = 0.
Proof.
  intros Hnot. apply demand_absent. intros item Hitem <-.
  apply Hnot. by apply list_elem_of_fmap_2.
Qed.

Lemma increase_line_ids product lines : ∀ lines',
  increase_line product lines = Some lines' → item_id <$> lines' = item_id <$> lines.
Proof.
  induction lines as [|item rest IH]; intros lines'; simpl; [discriminate|].
  destruct (item_id item =? product_id product).
  - intros [= <-]. destruct (_ <? _); reflexivity.
  - destruct (increase_line product rest) as [rest'|]; [|discriminate].
    simpl. intros [= <-]. rewrite !fmap_cons. f_equal. by apply IH.
Qed.

Lemma increase_line_absent product lines :
  increase_line product lines = None → product_id product ∉ item_id <$> lines.
Proof.
  induction lines as [|item rest IH]; simpl.
  - intros _. apply not_elem_of_nil.
  - destruct (Z.eqb_spec (item_id item) (product_id product)) as [Heq|Hne];
      [discriminate|].
    destruct (increase_line product rest); [discriminate|]. intros _.
    rewrite ?fmap_cons, not_elem_of_cons. split; [congruence | by apply IH].
Qed.

Lemma increase_line_quantities product lines : ∀ lines',
  increase_line product lines = Some lines' →
  Forall (λ item, 1 ≤ item_qty item) lines →
  Forall (λ item, 1 ≤ item_qty item) lines'.
Proof.
  induction lines as [|item rest IH]; intros lines'; simpl; [discriminate|].
  intros Hl Hall. inversion Hall as [|? ? Hitem Hrest]; subst.
  destruct (item_id item =? product_id product).
  - injection Hl as <-. constructor; [|exact Hrest].
    destruct (_ <? _); simpl; lia.
  - destruct (increase_line product rest) as [rest'|]; [|discriminate].
    injection Hl as <-. constructor; [exact Hitem | by apply IH].
Qed.

Lemma increase_line_demand product lines : ∀ lines',
  NoDup (item_id <$> lines) →
  increase_line product lines = Some lines' →
  demand (product_id product) lines'
  = (if demand (product_id product) lines <? product_stock product
     then demand (product_id product) lines + 1
     else demand (product_id product) lines) ∧
  ∀ p, p ≠ product_id product → demand p lines' = demand p lines.
Proof.
  induction lines as [|item rest IH]; intros lines'; simpl; [discriminate|].
  rewrite ?fmap_cons, NoDup_cons. intros [Hnot Hnd].
  destruct (Z.eqb_spec (item_id item) (product_id product)) as [Heq|Hne].
  - intros [= <-]. rewrite decide_True by exact Heq.
    rewrite Heq in Hnot. rewrite (demand_not_referenced _ _ Hnot), Z.add_0_r.
    split.
    + destruct (item_qty item <? product_stock product); simpl;
        rewrite decide_True by exact Heq;
        rewrite (demand_not_referenced _ _ Hnot); lia.
    + intros p Hp. destruct (item_qty item <? product_stock product); simpl;
        rewrite !decide_False by congruence; reflexivity.
  - destruct (increase_line product rest) as [rest'|]; [|discriminate].
    intros [= <-]. destruct (IH rest' Hnd eq_refl) as [Hd Hothers].
    rewrite decide_False by exact Hne. simpl.
    rewrite decide_False by exact Hne. rewrite !Z.add_0_l. split; [exact Hd|].
    intros p Hp. by rewrite Hothers.
Qed.

Lemma add_to_cart_cart app product :
  cart (add_to_cart app product)
  = if product_stock product <=? 0 then cart app
    else match increase_line product (cart app) with
         | Some lines => lines
         | None => cart app ++ [new_line product]
         end.
Proof.
  unfold add_to_cart. destruct (_ <=? _); [reflexivity|].
  destruct (increase_line _ _); reflexivity.
Qed.

Lemma add_to_cart_database app product :
  database (add_to_cart app product) = database app.
Proof.
  unfold add_to_cart. destruct (_ <=? _); [reflexivity|].
  destruct (increase_line _ _); reflexivity.
Qed.

(** One more of a product: its line goes up by one unless the product is
    out of stock or the line has the stock already; the other lines stay. *)
Lemma add_to_cart_demand app product :
  NoDup (item_id <$> cart app) →
  demand (product_id product) (cart (add_to_cart app product))
  = (if (0 <? product_stock product)
        && (demand (product_id product) (cart app) <? product_stock product)
     then demand (product_id product) (cart app) + 1
     else demand (product_id product) (cart app)) ∧
  ∀ p, p ≠ product_id product →
       demand p (cart (add_to_cart app product)) = demand p (cart app).
Proof.
  intros Hnd. rewrite add_to_cart_cart.
  destruct (Z.leb_spec (product_stock product) 0) as [Hout|Hin].
  - destruct (Z.ltb_spec 0 (product_stock product)); [lia|]. simpl. auto.
  - destruct (Z.ltb_spec 0 (product_stock product)); [|lia]. rewrite andb_true_l.
    destruct (increase_line product (cart app)) as [lines|] eqn:Hl.
    + by apply increase_line_demand.
    + apply increase_line_absent in Hl.
      rewrite (demand_not_referenced _ _ Hl). split.
      * rewrite demand_app, (demand_not_referenced _ _ Hl). simpl.
        rewrite decide_True by reflexivity.
        destruct (Z.ltb_spec 0 (product_stock product)); lia.
      * intros p Hp. rewrite demand_app. simpl.
        rewrite decide_False by congruence. lia.
Qed.

Lemma add_to_cart_ok app product :
  cart_ok (cart app) → cart_ok (cart (add_to_cart app product)).
Proof.
  intros [Hnd Hq]. rewrite add_to_cart_cart.
  destruct (_ <=? _); [by split|].
  destruct (increase_line product (cart app)) as [lines|] eqn:Hl.
  - split; [by rewrite (increase_line_ids _ _ _ Hl)|].
    by eapply increase_line_quantities.
  - apply increase_line_absent in Hl. split.
    + rewrite fmap_app. apply NoDup_app. split_and!; [exact Hnd | | ].
      * intros p Hp [->|[]%elem_of_nil]%elem_of_cons. by apply Hl.
      * apply NoDup_singleton.
    + apply Forall_app. split; [exact Hq|]. constructor; [simpl; lia | constructor].
Qed.

(** X3: "Add to Cart" pressed [n] times for one product, on a cart with at
    most one line per product.  A product out of stock leaves the
    application as it is.  Otherwise the quantity the cart has of the
    product goes up by one at each press until it is the stock of the
    product row, and stays where it is when it is that or more already; the
    quantities of the other products do not change and the cart keeps one
    line per product. *)
Theorem add_to_cart_repeated n : ∀ app product,
  NoDup (item_id <$> cart app) →
  let d := demand (product_id product) (cart app) in
  let app' := run app (replicate n (AddToCart product)) in
  (product_stock product ≤ 0 → app' = app) ∧
  (0 < product_stock product →
   demand (product_id product) (cart app')
   = Z.max d (Z.min (d + Z.of_nat n) (product_stock product))) ∧
  (∀ p, p ≠ product_id product → demand p (cart app') = demand p (cart app)) ∧
  NoDup (item_id <$> cart app').
Proof.
  induction n as [|n IH]; intros app product Hnd; cbv zeta.
  - simpl. split_and!; [done | lia | done | done].
  - cbn [replicate run foldl perform]. fold (run (add_to_cart app product) (replicate n (AddToCart product))).
    destruct (add_to_cart_demand app product Hnd) as [Hd Hothers].
    assert (Hnd' : NoDup (item_id <$> cart (add_to_cart app product))).
    { rewrite add_to_cart_cart. destruct (_ <=? _); [exact Hnd|].
      destruct (increase_line product (cart app)) as [lines|] eqn:Hl.
      - by rewrite (increase_line_ids _ _ _ Hl).
      - apply increase_line_absent in Hl. rewrite fmap_app. apply NoDup_app.
        split_and!; [exact Hnd | | apply NoDup_singleton].
        intros p Hp [->|[]%elem_of_nil]%elem_of_cons. by apply Hl. }
    destruct (IH (add_to_cart app product) product Hnd') as (Hout & Hin & Hrest & Hnd'').
    split_and!.
    + intros Hstock. rewrite Hout by exact Hstock. unfold add_to_cart.
      destruct (Z.leb_spec (product_stock product) 0); [reflexivity | lia].
    + intros Hstock. rewrite (Hin Hstock), Hd.
      destruct (Z.ltb_spec 0 (product_stock product)); [|lia]. rewrite andb_true_l.
      destruct (Z.ltb_spec (demand (product_id product) (cart app))
                  (product_stock product)); lia.
    + intros p Hp. by rewrite Hrest, Hothers.
    + exact Hnd''.
Qed.

Lemma add_to_cart_repeated_witness :
  demand 1 (cart (run (an_app [soda_line 1] "0" 5 (shop 3 40))
                    (replicate 5 (AddToCart (water_product 3)))))
  = 3.
Proof.
  destruct (add_to_cart_repeated 5 (an_app [soda_line 1] "0" 5 (shop 3 40))
              (water_product 3)) as (_ & Hin & _).
  - vm_compute. apply NoDup_singleton.
  - apply Hin. simpl. lia.
Defined.

Lemma add_to_cart_line_ok app product db :
  read_from db product →
  Forall (line_ok (products db)) (cart app) →
  Forall (line_ok (products db)) (cart (add_to_cart app product)).
Proof.
  intros (row & Hrow & Hstock) Hall. rewrite add_to_cart_cart.
  destruct (Z.leb_spec (product_stock product) 0) as [Hout|Hin]; [exact Hall|].
  destruct (increase_line product (cart app)) as [lines|] eqn:Hl.
  - revert lines Hl. induction Hall as [|item rest Hitem Hrest IH]; intros lines;
      simpl; [discriminate|].
    destruct (Z.eqb_spec (item_id item) (product_id product)) as [Heq|Hne].
    + intros [= <-]. constructor; [|exact Hrest].
      destruct (Z.ltb_spec (item_qty item) (product_stock product)); [|exact Hitem].
      exists row. simpl. rewrite Heq. split; [exact Hrow | lia].
    + destruct (increase_line product rest) as [rest'|]; [|discriminate].
      intros [= <-]. constructor; [exact Hitem | by apply IH].
  - apply Forall_app. split; [exact Hall|]. constructor; [|constructor].
    exists row. simpl. split; [exact Hrow | lia].
Qed.

(** X4: [add_to_cart] leaves the database alone, and a cart that passes the
    stock check of [save_sale] still passes it after any number of
    [add_to_cart] with product rows that carry the stock the database has:
    a cart filled from the catalog as it is never asks more than is there. *)
Theorem catalog_cart_passes_stock_check added : ∀ app,
  Forall (line_ok (products (database app))) (cart app) →
  Forall (read_from (database app)) added →
  let app' := run app (AddToCart <$> added) in
  database app' = database app ∧
  check_stock (products (database app')) (cart app') = None.
Proof.
  induction added as [|product rest IH]; intros app Hcart Hadded; cbv zeta.
  - simpl. split; [reflexivity|]. by apply check_stock_passes.
  - inversion Hadded as [|? ? Hproduct Hrest]; subst.
    cbn [fmap list_fmap run foldl perform].
    fold (run (add_to_cart app product) (AddToCart <$> rest)).
    destruct (IH (add_to_cart app product)) as [Hdb Hcheck].
    + rewrite add_to_cart_database. by apply add_to_cart_line_ok.
    + by rewrite add_to_cart_database.
    + rewrite Hdb, add_to_cart_database in *. by split.
Qed.

Lemma catalog_cart_passes_stock_check_witness :
  check_stock (products (shop 3 40))
    (cart (run (an_app [] "0" 5 (shop 3 40))
             (AddToCart <$> [water_product 3; soda_product 40; water_product 3;
                             water_product 3; water_product 3])))
  = None.
Proof.
  destruct (catalog_cart_passes_stock_check
              [water_product 3; soda_product 40; water_product 3; water_product 3;
               water_product 3] (an_app [] "0" 5 (shop 3 40))) as [Hdb Hcheck].
  - constructor.
  - repeat constructor; eexists; (split; [reflexivity | reflexivity]).
  - rewrite Hdb in Hcheck. exact Hcheck.
Defined.

(** ** The checkout, all or nothing *)

(** A checkout that completes no sale leaves the application as it was, but
    for the random numbers drawn. *)
Lemma checkout_without_sale app events :
  (∀ sale_id receipt_number,
     (checkout app events).2 ≠ SaleCompleted sale_id receipt_number) →
  (checkout app events).1
  = set_database app (database app) (world (checkout app events).1).
Proof.
  assert (Hsame : app = set_database app (database app) (world app))
    by (by destruct app).
  unfold checkout, process_payment.
  destruct (cart app) as [|first rest] eqn:Hcart; [intros _; exact Hsame|].
  destruct (shown_total app) as [total|]; [|intros _; exact Hsame].
  destruct (shown_subtotal app) as [subtotal|]; [|intros _; exact Hsame].
  destruct (shown_discount app) as [discount|]; [|intros _; exact Hsame].
  destruct (shown_tax app) as [tax|]; [|intros _; exact Hsame].
  destruct (payment_dialog total events) as [[paid method]|]; [|intros _; exact Hsame].
  unfold complete_sale.
  destruct (save_sale _ _ _ _ _ _ _ _ _ _ _) as [[[e|[sid rn]] db'] w'] eqn:Hs.
  - intros _. apply save_sale_error_rolls_back in Hs. subst db'. reflexivity.
  - intros Hnot. destruct (Hnot sid rn). reflexivity.
Qed.

Lemma checkout_outcomes app events :
  (∃ sale_id receipt_number,
     (checkout app events).2 = SaleCompleted sale_id receipt_number) ∨
  (∀ sale_id receipt_number,
     (checkout app events).2 ≠ SaleCompleted sale_id receipt_number).
Proof.
  destruct (checkout app events).2 as [| | | e|sid rn]; eauto; right; discriminate.
Qed.

(** After a sale the application is that of [new_sale]. *)
Lemma checkout_completed_app app events app' sale_id receipt_number :
  checkout app events = (app', SaleCompleted sale_id receipt_number) →
  ∃ db' w', app' = new_sale (set_database app db' w').
Proof.
  unfold checkout, process_payment.
  destruct (cart app) as [|first rest]; [discriminate|].
  destruct (shown_total app) as [total|]; [|discriminate].
  destruct (shown_subtotal app) as [subtotal|]; [|discriminate].
  destruct (shown_discount app) as [discount|]; [|discriminate].
  destruct (shown_tax app) as [tax|]; [|discriminate].
  destruct (payment_dialog total events) as [[paid method]|]; [|discriminate].
  unfold complete_sale.
  destruct (save_sale _ _ _ _ _ _ _ _ _ _ _) as [[[e|[sid rn]] db'] w'];
    [discriminate|].
  intros [= <- _ _]. eauto.
Qed.

(** X5: a checkout is all or nothing.  When it completes a sale, the
    sales table has one row more, with the id and the receipt number
    reported, the cart is empty and the discount field is back at "0".
    However else it ends (empty cart, totals not read, payment cancelled,
    sale refused), the cart, the database, the discount field and the totals
    shown are as they were. *)
Theorem checkout_all_or_nothing app events :
  let app' := (checkout app events).1 in
  match (checkout app events).2 with
  | SaleCompleted sale_id receipt_number =>
      cart app' = [] ∧ discount_var app' = "0" ∧
      ∃ row, sales (database app') = sales (database app) ++ [row]
             ∧ s_id row = sale_id ∧ s_receipt_number row = receipt_number
  | _ =>
      cart app' = cart app ∧ database app' = database app ∧
      discount_var app' = discount_var app ∧
      (subtotal_var app', discount_amount_var app', tax_var app', total_var app')
      = (subtotal_var app, discount_amount_var app, tax_var app, total_var app)
  end.
Proof.
  cbv zeta. pose proof (checkout_without_sale app events) as Hnone.
  destruct (checkout app events) as [app' outcome] eqn:Hc. simpl in *.
  destruct outcome as [| | | e|sale_id receipt_number];
    try (rewrite Hnone by discriminate; simpl; auto).
  destruct (checkout_completed_app _ _ _ _ _ Hc) as (db1 & w1 & Happ).
  apply checkout_completed in Hc
    as (total & subtotal & discount & tax & paid & method & db' & w'
        & _ & _ & _ & _ & Hdialog & Hs & Hdb & Hempty).
  split; [exact Hempty|]. split; [by rewrite Happ|].
  apply save_sale_row in Hs. eexists. rewrite Hdb, Hs. split_and!; reflexivity.
Qed.

(** ** The stock dialog *)

Lemma new_stock_not_negative current_stock amount update_type stock :
  StockUpdateDialog.new_stock current_stock amount update_type = inr stock →
  0 ≤ stock.
Proof.
  unfold StockUpdateDialog.new_stock.
  destruct (amount <? 0); [discriminate|].
  destruct (if String.eqb update_type "set" then _ else _) as [message|computed];
    [discriminate|].
  destruct (Z.ltb_spec computed 0); [discriminate|]. intros [= <-]. assumption.
Qed.

(** X6: [StockUpdateDialog.update_stock] writes no stock below zero.  When
    it refuses, the database is as it was; when it writes, the stock written
    is 0 or more, it is the stock of the product from then on, no other
    product, sale or sale item changes, and it is the amount for "set", the
    stock the dialog was opened with plus the amount for "add", and that
    stock minus the amount, which is not above it, for "subtract". *)
Theorem stock_dialog_writes_no_negative_stock db product_id current_stock amount
    update_type :
  let result := StockUpdateDialog.update_stock db product_id current_stock amount
                  update_type in
  match result.2 with
  | None => result.1 = db
  | Some stock =>
      0 ≤ stock ∧
      (is_Some (products db !! product_id) → stock_of result.1 product_id = stock) ∧
      (∀ p, p ≠ product_id → stock_of result.1 p = stock_of db p) ∧
      sales result.1 = sales db ∧ sale_items result.1 = sale_items db ∧
      (update_type = "set" → stock = amount) ∧
      (update_type = "add" → stock = current_stock + amount) ∧
      (update_type = "subtract" → stock = current_stock - amount ∧ amount ≤ current_stock)
  end.
Proof.
  cbv zeta. unfold StockUpdateDialog.update_stock.
  destruct (StockUpdateDialog.new_stock current_stock amount update_type)
    as [message|stock] eqn:Hnew; simpl; [reflexivity|].
  split; [by eapply new_stock_not_negative|].
  split.
  { intros [row Hrow]. unfold stock_of. simpl. rewrite lookup_alter.
    rewrite decide_True by reflexivity. rewrite Hrow. reflexivity. }
  split.
  { intros p Hp. unfold stock_of. simpl. rewrite lookup_alter.
    rewrite decide_False by congruence. reflexivity. }
  split; [reflexivity|]. split; [reflexivity|].
  unfold StockUpdateDialog.new_stock in Hnew.
  destruct (amount <? 0) eqn:Hamount; [discriminate|].
  split_and!; intros ->; simpl in Hnew.
  - rewrite Hamount in Hnew. congruence.
  - destruct (current_stock + amount <? 0); congruence.
  - destruct (Z.ltb_spec current_stock amount); [discriminate|].
    destruct (current_stock - amount <? 0); [discriminate|].
    split; [congruence | lia].
Qed.

Lemma update_stock_stocks_ok db product_id current_stock amount update_type :
  stocks_ok db →
  stocks_ok (StockUpdateDialog.update_stock db product_id current_stock amount
               update_type).1.
Proof.
  intros Hok. unfold StockUpdateDialog.update_stock.
  destruct (StockUpdateDialog.new_stock current_stock amount update_type)
    as [message|stock] eqn:Hnew; simpl; [exact Hok|].
  apply new_stock_not_negative in Hnew. intros p. specialize (Hok p).
  unfold stock_of in *. simpl. rewrite lookup_alter.
  destruct (decide (product_id = p)) as [->|Hne]; [|exact Hok].
  destruct (products db !! p); simpl; lia.
Qed.

(** ** The cart over a session *)

Lemma edited_cart_ok lines index cart_item result :
  cart_ok lines → lines !! index = Some cart_item → 1 ≤ result →
  cart_ok (<[index := with_qty cart_item result]> lines).
Proof.
  intros [Hnd Hq] Hitem Hresult. split.
  - rewrite list_fmap_insert. simpl. rewrite list_insert_id; [exact Hnd|].
    by rewrite list_lookup_fmap, Hitem.
  - apply Forall_insert; [exact Hq | exact Hresult].
Qed.

Lemma deleted_cart_ok lines index : cart_ok lines → cart_ok (delete index lines).
Proof.
  intros [Hnd Hq]. split.
  - rewrite list_fmap_delete. eapply sublist_NoDup; [exact Hnd | apply sublist_delete].
  - by apply Forall_delete.
Qed.

Lemma empty_cart_ok : cart_ok [].
Proof. split; [apply NoDup_nil_2 | constructor]. Qed.

Lemma edit_quantity_ok app selection events :
  cart_ok (cart app) → cart_ok (cart (CartViewDialog.edit_quantity app selection events)).
Proof.
  intros Hok. unfold CartViewDialog.edit_quantity.
  destruct selection as [index|]; [|exact Hok].
  destruct (cart app !! index) as [cart_item|] eqn:Hitem; [|exact Hok].
  destruct (quantity_dialog (item_qty cart_item) events) as [result|] eqn:Hd;
    [|exact Hok].
  apply quantity_dialog_sign in Hd.
  destruct (Z.eqb_spec result 0); simpl.
  - by apply deleted_cart_ok.
  - apply edited_cart_ok; [exact Hok | exact Hitem | lia].
Qed.

Lemma edit_cart_item_as_in_view app selection events :
  cart (edit_cart_item app selection events)
  = cart (CartViewDialog.edit_quantity app selection events) ∧
  database (edit_cart_item app selection events)
  = database (CartViewDialog.edit_quantity app selection events).
Proof.
  unfold edit_cart_item, CartViewDialog.edit_quantity.
  destruct selection as [index|]; [|done].
  destruct (cart app !! index) as [cart_item|]; [|done].
  destruct (quantity_dialog (item_qty cart_item) events) as [result|]; [|done].
  destruct (result =? 0); done.
Qed.

Lemma remove_item_ok app selection :
  cart_ok (cart app) → cart_ok (cart (CartViewDialog.remove_item app selection)).
Proof.
  intros Hok. unfold CartViewDialog.remove_item.
  destruct selection as [index|]; [|exact Hok].
  destruct (cart app !! index); [|exact Hok]. simpl. by apply deleted_cart_ok.
Qed.

Lemma checkout_cart app events :
  cart (checkout app events).1 = cart app ∨ cart (checkout app events).1 = [].
Proof.
  destruct (checkout_outcomes app events) as [(sale_id & receipt_number & Hc)|Hnone].
  - right. destruct (checkout app events) as [app' outcome] eqn:Hco. simpl in *.
    subst outcome. by apply checkout_completed in Hco as (? & ? & ? & ? & ? & ? & ? & ? & ? & ? & ? & ? & ? & ? & ? & ?).
  - left. rewrite checkout_without_sale by exact Hnone. reflexivity.
Qed.

(** Every action keeps the cart in order. *)
Lemma perform_cart_ok app action :
  cart_ok (cart app) → cart_ok (cart (perform app action)).
Proof.
  intros Hok. destruct action; simpl.
  - by apply add_to_cart_ok.
  - rewrite (proj1 (edit_cart_item_as_in_view _ _ _)). by apply edit_quantity_ok.
  - by apply (remove_item_ok app selection).
  - unfold clear_cart. destruct (cart app) eqn:Hcart; [by rewrite Hcart|].
    destruct confirmed; simpl; [apply empty_cart_ok | by rewrite Hcart].
  - by apply edit_quantity_ok.
  - by apply remove_item_ok.
  - exact Hok.
  - unfold apply_quick_discount. destruct (cart app) eqn:Hcart; [by rewrite Hcart|].
    simpl. by rewrite Hcart.
  - apply empty_cart_ok.
  - destruct (checkout_cart app events) as [-> | ->]; [exact Hok | apply empty_cart_ok].
  - exact Hok.
Qed.

(** X7: over any session of the operator's actions the cart keeps at most
    one line per product and at least one unit on every line. *)
Theorem session_keeps_cart_in_order actions : ∀ app,
  cart_ok (cart app) → cart_ok (cart (run app actions)).
Proof.
  induction actions as [|action rest IH]; intros app Hok; [exact Hok|].
  apply (IH (perform app action)). by apply perform_cart_ok.
Qed.

Lemma session_keeps_cart_in_order_witness :
  cart_ok (cart (run (starting_app (shop 3 40)) a_session)).
Proof.
  apply session_keeps_cart_in_order. split; [apply NoDup_nil_2 | constructor].
Defined.

Lemma checkout_stocks_ok app events :
  cart_ok (cart app) → stocks_ok (database app) →
  stocks_ok (database (checkout app events).1).
Proof.
  intros [Hnd _] Hok.
  destruct (checkout_outcomes app events) as [(sale_id & receipt_number & Hc)|Hnone].
  - destruct (checkout app events) as [app' outcome] eqn:Hco. simpl in *.
    subst outcome. apply checkout_completed in Hco
      as (total & subtotal & discount & tax & paid & method & db' & w'
          & _ & _ & _ & _ & _ & Hs & Hdb & _).
    rewrite Hdb. intros p.
    destruct (decide (p ∈ item_id <$> cart app)) as [Hin|Hnot].
    + apply list_elem_of_fmap in Hin as (item & -> & Hitem).
      by eapply distinct_products_keep_stock.
    + rewrite (save_sale_stock _ _ _ _ _ _ _ _ _ _ _ _ _ _ _ Hs).
      rewrite (demand_not_referenced _ _ Hnot). specialize (Hok p). lia.
  - rewrite checkout_without_sale by exact Hnone. exact Hok.
Qed.

Lemma perform_stocks_ok app action :
  cart_ok (cart app) → stocks_ok (database app) →
  stocks_ok (database (perform app action)).
Proof.
  intros Hcart Hok. destruct action; simpl.
  - by rewrite add_to_cart_database.
  - rewrite (proj2 (edit_cart_item_as_in_view _ _ _)).
    unfold CartViewDialog.edit_quantity.
    destruct selection as [index|]; [|exact Hok].
    destruct (cart app !! index) as [cart_item|]; [|exact Hok].
    destruct (quantity_dialog _ _) as [result|]; [|exact Hok].
    destruct (result =? 0); exact Hok.
  - unfold remove_cart_item. destruct selection as [index|]; [|exact Hok].
    destruct (cart app !! index); exact Hok.
  - unfold clear_cart. destruct (cart app); [exact Hok|].
    destruct confirmed; exact Hok.
  - unfold CartViewDialog.edit_quantity.
    destruct selection as [index|]; [|exact Hok].
    destruct (cart app !! index) as [cart_item|]; [|exact Hok].
    destruct (quantity_dialog _ _) as [result|]; [|exact Hok].
    destruct (result =? 0); exact Hok.
  - unfold CartViewDialog.remove_item. destruct selection as [index|]; [|exact Hok].
    destruct (cart app !! index); exact Hok.
  - exact Hok.
  - unfold apply_quick_discount. destruct (cart app); exact Hok.
  - exact Hok.
  - by apply checkout_stocks_ok.
  - by apply update_stock_stocks_ok.
Qed.

(** X8: over any session of the operator's actions, checkouts and stock
    updates among them, no stock goes below zero: the carts the application
    builds never have two lines of one product, which is what the stock
    check of [save_sale] relies on. *)
Theorem session_keeps_stock_above_zero actions : ∀ app,
  cart_ok (cart app) → stocks_ok (database app) →
  stocks_ok (database (run app actions)).
Proof.
  induction actions as [|action rest IH]; intros app Hcart Hok; [exact Hok|].
  apply (IH (perform app action)).
  - by apply perform_cart_ok.
  - by apply perform_stocks_ok.
Qed.

Lemma session_keeps_stock_above_zero_witness :
  stocks_ok (database (run (starting_app (shop 3 40)) a_session)).
Proof.
  apply session_keeps_stock_above_zero.
  - split; [apply NoDup_nil_2 | constructor].
  - intros p. unfold stock_of, shop. simpl.
    destruct (decide (p = 1)) as [->|H1]; [by vm_compute|].
    destruct (decide (p = 2)) as [->|H2]; [by vm_compute|].
    rewrite !lookup_insert_ne by congruence. by rewrite lookup_empty.
Defined.

(** ** The integrity of the database *)

Lemma sale_exists_spec db sale_id :
  sale_exists db sale_id = true ↔ sale_id ∈ s_id <$> sales db.
Proof.
  unfold sale_exists. rewrite existsb_exists. split.
  - intros (s & Hs & Heq). apply Z.eqb_eq in Heq. subst sale_id.
    apply list_elem_of_fmap_2. by apply list_elem_of_In.
  - intros (s & -> & Hs)%list_elem_of_fmap. exists s.
    split; [by apply list_elem_of_In | apply Z.eqb_refl].
Qed.

Lemma receipt_taken_spec db receipt_number :
  receipt_taken db receipt_number = true ↔ receipt_number ∈ s_receipt_number <$> sales db.
Proof.
  unfold receipt_taken. rewrite existsb_exists. split.
  - intros (s & Hs & Heq). apply String.eqb_eq in Heq. subst receipt_number.
    apply list_elem_of_fmap_2. by apply list_elem_of_In.
  - intros (s & -> & Hs)%list_elem_of_fmap. exists s.
    split; [by apply list_elem_of_In | apply String.eqb_refl].
Qed.

Lemma NoDup_snoc_above (l : list Z) (bound : Z) :
  NoDup l → Forall (λ x, x ≤ bound) l → NoDup (l ++ [bound + 1]).
Proof.
  intros Hnd Hall. apply NoDup_app. split_and!; [exact Hnd | | apply NoDup_singleton].
  intros x Hx [->|[]%elem_of_nil]%elem_of_cons.
  rewrite Forall_forall in Hall. specialize (Hall _ Hx). lia.
Qed.

Lemma insert_sale_consistent db receipt_number customer_id subtotal discount tax
    total paid change payment_method cashier_name db1 sale_id :
  consistent db →
  insert_sale db receipt_number customer_id subtotal discount tax total paid
    change payment_method cashier_name = inr (db1, sale_id) →
  consistent db1 ∧ sale_id = sales_seq db + 1 ∧ sale_exists db1 sale_id = true.
Proof.
  intros (Hids & Hseq & Hreceipts & Hitems & Hiseq & Hfk). unfold insert_sale.
  destruct (is_nan subtotal); [discriminate|].
  destruct (is_nan tax); [discriminate|].
  destruct (is_nan total); [discriminate|].
  destruct (is_nan paid); [discriminate|].
  destruct (is_nan change); [discriminate|].
  destruct (receipt_taken db receipt_number) eqn:Hfree; [discriminate|].
  intros [= <- <-]. split_and!; [| reflexivity |].
  - unfold consistent. simpl. rewrite !fmap_app. simpl. split_and!.
    + apply NoDup_snoc_above; [exact Hids|]. by apply Forall_fmap.
    + apply Forall_app. split.
      * eapply Forall_impl; [exact Hseq|]. simpl. intros s Hs. lia.
      * constructor; [simpl; lia | constructor].
    + apply NoDup_app. split_and!; [exact Hreceipts | | apply NoDup_singleton].
      intros r Hr [->|[]%elem_of_nil]%elem_of_cons.
      apply receipt_taken_spec in Hr. congruence.
    + exact Hitems.
    + exact Hiseq.
    + eapply Forall_impl; [exact Hfk|]. simpl. intros si [Hsale Hprod].
      split; [|exact Hprod]. unfold sale_exists in *. simpl.
      rewrite existsb_app, Hsale. reflexivity.
  - unfold sale_exists. simpl. rewrite existsb_app. simpl.
    rewrite Z.eqb_refl. by rewrite orb_true_r.
Qed.

Lemma insert_sale_item_consistent db sale_id product_id quantity unit_price
    total_price db' :
  consistent db →
  insert_sale_item db sale_id product_id quantity unit_price total_price = inr db' →
  consistent db'.
Proof.
  intros (Hids & Hseq & Hreceipts & Hitems & Hiseq & Hfk). unfold insert_sale_item.
  destruct (is_nan unit_price); [discriminate|].
  destruct (is_nan total_price); [discriminate|].
  destruct (sale_exists db sale_id) eqn:Hsale; [|discriminate].
  destruct (bool_decide (is_Some (products db !! product_id))) eqn:Hprod;
    [|discriminate].
  apply bool_decide_eq_true in Hprod. simpl. intros [= <-].
  unfold consistent. simpl. rewrite !fmap_app. simpl. split_and!; try assumption.
  - apply NoDup_snoc_above; [exact Hitems|]. by apply Forall_fmap.
  - apply Forall_app. split.
    + eapply Forall_impl; [exact Hiseq|]. simpl. intros si Hsi. lia.
    + constructor; [simpl; lia | constructor].
  - apply Forall_app. split; [exact Hfk|]. constructor; [|constructor].
    simpl. split; [exact Hsale | exact Hprod].
Qed.

Lemma update_stock_consistent db quantity product_id :
  consistent db → consistent (update_stock db quantity product_id).
Proof.
  intros (Hids & Hseq & Hreceipts & Hitems & Hiseq & Hfk).
  unfold consistent. simpl. split_and!; try assumption.
  eapply Forall_impl; [exact Hfk|]. simpl. intros si [Hsale Hprod].
  split; [exact Hsale|]. by apply lookup_alter_is_Some.
Qed.

Lemma write_items_consistent sale_id lines : ∀ db db',
  consistent db → write_items db sale_id lines = inr db' → consistent db'.
Proof.
  induction lines as [|item rest IH]; intros db db' Hok; simpl.
  - by intros [= <-].
  - destruct (insert_sale_item _ _ _ _ _ _) as [message|db1] eqn:Hins; [discriminate|].
    apply IH. apply update_stock_consistent. by eapply insert_sale_item_consistent.
Qed.

Lemma shop_with_sale_consistent : consistent shop_with_sale.
Proof.
  unfold consistent, shop_with_sale. simpl.
  split_and!;
    first [apply NoDup_singleton | apply NoDup_nil_2
          | repeat constructor; simpl; lia].
Qed.

(** X9: [save_sale], whether it goes through or raises, keeps the
    constraints of the schema: the ids of sales and sale_items are distinct
    and within their sequences, the receipt numbers are distinct, and every
    sale item refers to a sale and to a product that exist. *)
Theorem save_sale_keeps_integrity w db lines subtotal discount tax total paid
    payment_method cashier_name customer_id :
  consistent db →
  consistent (save_sale w db lines subtotal discount tax total paid payment_method
                cashier_name customer_id).1.2.
Proof.
  intros Hok.
  destruct (save_sale w db lines subtotal discount tax total paid payment_method
              cashier_name customer_id) as [[[e|[sale_id receipt_number]] db'] w'] eqn:Hs;
    simpl.
  - apply save_sale_error_rolls_back in Hs. by subst db'.
  - apply save_sale_success_inv in Hs as (_ & _ & db1 & Hins & Hw).
    eapply write_items_consistent; [|exact Hw].
    by eapply insert_sale_consistent.
Qed.

Lemma save_sale_keeps_integrity_witness :
  consistent (save_sale later_world shop_with_sale scenario_a_cart (of_Z 5) zero zero
                (of_Z 5) (of_Z 5) "Cash" "Admin" None).1.2.
Proof. apply save_sale_keeps_integrity. apply shop_with_sale_consistent. Defined.

(** ** The catalog *)

(** X10: [save_sale], whether it goes through or raises, adds and removes
    no product, changes no name and no price, and leaves the row of every
    product the cart does not refer to as it was. *)
Theorem save_sale_keeps_catalog w db lines subtotal discount tax total paid
    payment_method cashier_name customer_id :
  let db' := (save_sale w db lines subtotal discount tax total paid payment_method
                cashier_name customer_id).1.2 in
  (∀ p, p_name <$> products db' !! p = p_name <$> products db !! p) ∧
  (∀ p, p_price <$> products db' !! p = p_price <$> products db !! p) ∧
  (∀ p, p ∉ item_id <$> lines → products db' !! p = products db !! p).
Proof.
  cbv zeta.
  destruct (save_sale w db lines subtotal discount tax total paid payment_method
              cashier_name customer_id) as [[[e|[sale_id receipt_number]] db'] w'] eqn:Hs;
    simpl.
  - apply save_sale_error_rolls_back in Hs. by subst db'.
  - apply save_sale_success_inv in Hs as (_ & _ & db1 & Hins & Hw).
    apply insert_sale_spec in Hins as (_ & _ & Hprods & _ & _).
    apply write_items_spec in Hw as (_ & _ & Hstock & _).
    split_and!; intros p; rewrite Hstock, Hprods.
    + by destruct (products db !! p).
    + by destruct (products db !! p).
    + intros Hnot. rewrite (demand_not_referenced _ _ Hnot).
      destruct (products db !! p) as [row|]; simpl; [|reflexivity].
      by rewrite decrement_0.
Qed.

(** ** Reading a sale back *)

Lemma find_snoc {A} (f : A → bool) l x :
  List.find f (l ++ [x])
  = match List.find f l with
    | Some y => Some y
    | None => if f x then Some x else None
    end.
Proof.
  induction l as [|y l IH]; simpl; [reflexivity|]. destruct (f y); [reflexivity | exact IH].
Qed.

Lemma find_none_above sale_id l :
  Forall (λ s, s_id s < sale_id) l → List.find (λ s, s_id s =? sale_id) l = None.
Proof.
  induction 1 as [|s l Hs _ IH]; simpl; [reflexivity|].
  destruct (Z.eqb_spec (s_id s) sale_id); [lia | exact IH].
Qed.

(** The rows a sale wrote are those [get_sale_details] joins for it. *)
Lemma detail_rows_of_sale sale_id (prods : gmap Z ProductRow) db' lines rows :
  Forall2 (item_row_of sale_id) lines rows →
  (∀ item, item ∈ lines → is_Some (prods !! item_id item)) →
  (∀ p, p_name <$> products db' !! p = p_name <$> prods !! p) →
  ∃ details,
    omap (λ si,
            if si_sale_id si =? sale_id
            then (λ p, {| d_item := si; d_product_name := p_name p |})
                   <$> products db' !! si_product_id si
            else None) rows = details ∧
    d_item <$> details = rows ∧
    Forall2 (λ item d, p_name <$> prods !! item_id item = Some (d_product_name d))
      lines details.
Proof.
  intros Hrows Hprods Hnames.
  induction Hrows as [|item row lines rows (Hsale & Hprod & _) _ IH].
  - exists []. split_and!; [reflexivity | reflexivity | constructor].
  - destruct IH as (details & Hd & Hitems & Hall).
    { intros other Hother. apply Hprods. by right. }
    destruct (Hprods item) as [prow Hprow]; [left|].
    pose proof (Hnames (item_id item)) as Hname. rewrite Hprow in Hname.
    destruct (products db' !! item_id item) as [prow'|] eqn:Hprow'; [|discriminate].
    simpl in Hname. injection Hname as Hname.
    exists ({| d_item := row; d_product_name := p_name prow' |} :: details).
    split_and!.
    + simpl. rewrite Hsale, Z.eqb_refl, Hprod, Hprow'. simpl. f_equal. exact Hd.
    + rewrite fmap_cons, Hitems. reflexivity.
    + constructor; [|exact Hall]. simpl. by rewrite Hprow, Hname.
Qed.

Lemma no_detail_rows sale_id (prods : gmap Z ProductRow) l :
  Forall (λ si, si_sale_id si ≠ sale_id) l →
  omap (λ si,
          if si_sale_id si =? sale_id
          then (λ p : ProductRow, {| d_item := si; d_product_name := p_name p |})
                 <$> prods !! si_product_id si
          else None) l = [].
Proof.
  induction 1 as [|si l Hsi _ IH]; simpl; [reflexivity|].
  destruct (Z.eqb_spec (si_sale_id si) sale_id); [done | exact IH].
Qed.

(** X11: what [save_sale] has saved, [get_sale_details] reads back: for the
    id returned it gives the sales row with the amounts, the payment method
    and the cashier passed in, the receipt number returned and paid - total
    as the change, and one line per line of the cart, in cart order, with
    the product, quantity and unit price of the line, quantity times unit
    price as its total, and the name the catalog has for the product. *)
Theorem saved_sale_is_read_back w db lines subtotal discount tax total paid
    payment_method cashier_name customer_id sale_id receipt_number db' w' :
  consistent db →
  save_sale w db lines subtotal discount tax total paid payment_method
    cashier_name customer_id = (inr (sale_id, receipt_number), db', w') →
  ∃ details,
    get_sale_details db' sale_id
    = (Some {| s_id := sale_id; s_receipt_number := receipt_number;
               s_customer_id := customer_id; s_subtotal := subtotal;
               s_discount := discount; s_tax := tax; s_total := total;
               s_paid := paid; s_change_amount := sub paid total;
               s_payment_method := payment_method;
               s_cashier_name := cashier_name |}, details) ∧
    Forall2 (detail_row_of db sale_id) lines details.
Proof.
  intros Hok Hs. pose proof (save_sale_row _ _ _ _ _ _ _ _ _ _ _ _ _ _ _ Hs) as Hsales.
  apply save_sale_success_inv in Hs as (Hcheck & _ & db1 & Hins & Hw).
  destruct (insert_sale_consistent _ _ _ _ _ _ _ _ _ _ _ _ _ Hok Hins)
    as (_ & Hid & _).
  apply insert_sale_spec in Hins as (_ & _ & Hprods & Hitems1 & _).
  apply write_items_spec in Hw as (_ & _ & Hstock & rows & Hitems & Hrows).
  destruct Hok as (_ & Hseq & _ & _ & _ & Hfk).
  apply check_stock_passes in Hcheck. rewrite Forall_forall in Hcheck.
  destruct (detail_rows_of_sale sale_id (products db) db' lines rows Hrows)
    as (details & Hd & Hditems & Hnames).
  { intros item Hitem. destruct (Hcheck _ Hitem) as (row & Hrow & _). eauto. }
  { intros p. rewrite Hstock, Hprods. by destruct (products db !! p). }
  exists details. split.
  - unfold get_sale_details, sale_detail_rows. f_equal.
    + rewrite Hsales, find_snoc, find_none_above.
      * simpl. by rewrite Z.eqb_refl.
      * eapply Forall_impl; [exact Hseq|]. simpl. intros s Hle. lia.
    + rewrite Hitems, Hitems1, omap_app, no_detail_rows; [by rewrite Hd|].
      eapply Forall_impl; [exact Hfk|]. simpl. intros si [Hsale _] Heq.
      apply sale_exists_spec in Hsale. apply list_elem_of_fmap in Hsale as (s & Hs & Hin).
      rewrite Forall_forall in Hseq. specialize (Hseq _ Hin). lia.
  - subst rows. clear -Hrows Hnames.
    revert lines Hrows Hnames. induction details as [|d details IH]; intros lines Hrows Hnames.
    + inversion Hnames; subst. constructor.
    + inversion Hnames as [|item ? lines' ? Hname Hnames']; subst.
      rewrite fmap_cons in Hrows. inversion Hrows; subst.
      constructor; [by split | by apply IH].
Qed.

Lemma saved_sale_is_read_back_witness :
  ∃ sale details,
    get_sale_details
      (save_sale later_world shop_with_sale scenario_a_cart (of_Z 5) zero zero
         (of_Z 5) (of_Z 5) "Cash" "Admin" None).1.2 2
    = (Some sale, details) ∧
    s_receipt_number sale = "R17000000601234" ∧
    Forall2 (detail_row_of shop_with_sale 2) scenario_a_cart details.
Proof.
  destruct (saved_sale_is_read_back later_world shop_with_sale scenario_a_cart
              (of_Z 5) zero zero (of_Z 5) (of_Z 5) "Cash" "Admin" None 2
              "R17000000601234"
              (save_sale later_world shop_with_sale scenario_a_cart (of_Z 5) zero
                 zero (of_Z 5) (of_Z 5) "Cash" "Admin" None).1.2
              (randint later_world).2) as (details & Hread & Hrows).
  - apply shop_with_sale_consistent.
  - vm_compute. reflexivity.
  - eexists _, details. split; [exact Hread|]. split; [reflexivity | exact Hrows].
Defined.

(** X12: a sale that goes through changes nothing of what
    [get_sale_details] gives for any other sale id. *)
Theorem earlier_sales_read_the_same w db lines subtotal discount tax total paid
    payment_method cashier_name customer_id sale_id receipt_number db' w' earlier :
  save_sale w db lines subtotal discount tax total paid payment_method
    cashier_name customer_id = (inr (sale_id, receipt_number), db', w') →
  earlier ≠ sale_id →
  get_sale_details db' earlier = get_sale_details db earlier.
Proof.
  intros Hs Hne. pose proof (save_sale_row _ _ _ _ _ _ _ _ _ _ _ _ _ _ _ Hs) as Hsales.
  apply save_sale_success_inv in Hs as (_ & _ & db1 & Hins & Hw).
  apply insert_sale_spec in Hins as (_ & _ & Hprods & Hitems1 & _).
  apply write_items_spec in Hw as (_ & _ & Hstock & rows & Hitems & Hrows).
  unfold get_sale_details, sale_detail_rows. f_equal.
  - rewrite Hsales, find_snoc. simpl.
    destruct (List.find _ (sales db)); [reflexivity|].
    destruct (Z.eqb_spec sale_id earlier); [congruence | reflexivity].
  - rewrite Hitems, Hitems1, omap_app.
    rewrite (no_detail_rows earlier (products db') rows), app_nil_r.
    + apply list_omap_ext. apply Forall2_same_length_lookup. split; [reflexivity|].
      intros i si si' Hsi Hsi'. rewrite Hsi in Hsi'. injection Hsi' as <-.
      destruct (si_sale_id si =? earlier); [|reflexivity].
      rewrite Hstock, Hprods. by destruct (products db !! si_product_id si).
    + clear -Hrows Hne. induction Hrows as [|item row lines rows (Hsale & _) _ IH];
        constructor; [congruence | exact IH].
Qed.

Lemma earlier_sales_read_the_same_witness :
  get_sale_details
    (save_sale later_world shop_with_sale [water_line 2] (of_Z 3) zero zero (of_Z 3)
       (of_Z 3) "Cash" "Admin" None).1.2 1
  = get_sale_details shop_with_sale 1.
Proof.
  apply (earlier_sales_read_the_same later_world shop_with_sale [water_line 2]
           (of_Z 3) zero zero (of_Z 3) (of_Z 3) "Cash" "Admin" None 2
           "R17000000601234" _ (randint later_world).2).
  - vm_compute. reflexivity.
  - lia.
Defined.

(** ** The totals on the panel *)

Lemma readable_panel app1 app2 : panel app1 = panel app2 → readable app1 → readable app2.
Proof.
  unfold panel, readable, shown_total, shown_subtotal, shown_discount, shown_tax.
  intros [= -> -> -> -> ->]. auto.
Qed.

Lemma update_totals_is_readable app :
  plain_currency (currency_symbol app) → readable (update_totals app).
Proof.
  intros Hplain.
  destruct (update_totals_readable app Hplain)
    as (total & subtotal & discount & tax & Ht & Hs & Hd & Hx).
  unfold readable. rewrite Ht, Hs, Hd, Hx. eauto.
Qed.

(** An action leaves the panel and the cart as they are or ends by
    [update_totals]. *)
Lemma perform_panel app action :
  (panel (perform app action) = panel app ∧ cart (perform app action) = cart app) ∨
  ∃ app0, perform app action = update_totals app0
          ∧ currency_symbol app0 = currency_symbol app.
Proof.
  destruct action; simpl.
  - unfold add_to_cart. destruct (_ <=? _); [by left|].
    destruct (increase_line _ _); right; eexists; split; reflexivity.
  - unfold edit_cart_item. destruct selection as [index|]; [|by left].
    destruct (cart app !! index) as [cart_item|]; [|by left].
    destruct (quantity_dialog _ _) as [result|]; [|by left].
    destruct (result =? 0); right; eexists; split; reflexivity.
  - unfold remove_cart_item. destruct selection as [index|]; [|by left].
    destruct (cart app !! index); [|by left].
    right; eexists; split; reflexivity.
  - unfold clear_cart. destruct (cart app) eqn:Hcart; [by left|].
    destruct confirmed; [|by left]. right; eexists; split; reflexivity.
  - unfold CartViewDialog.edit_quantity. destruct selection as [index|]; [|by left].
    destruct (cart app !! index) as [cart_item|]; [|by left].
    destruct (quantity_dialog _ _) as [result|]; [|by left].
    destruct (result =? 0); right; eexists; split; reflexivity.
  - unfold CartViewDialog.remove_item. destruct selection as [index|]; [|by left].
    destruct (cart app !! index); [|by left].
    right; eexists; split; reflexivity.
  - by left.
  - unfold apply_quick_discount. destruct (cart app) eqn:Hcart; [by left|].
    right; eexists; split; reflexivity.
  - right; eexists; split; reflexivity.
  - destruct (checkout_outcomes app events) as [(sale_id & receipt_number & Hc)|Hnone].
    + right. destruct (checkout app events) as [app' outcome] eqn:Hco. simpl in *.
      subst outcome. apply checkout_completed_app in Hco as (db' & w' & ->).
      eexists; split; reflexivity.
    + left. rewrite checkout_without_sale by exact Hnone. by split.
  - by left.
Qed.

Lemma perform_currency app action :
  currency_symbol (perform app action) = currency_symbol app.
Proof.
  destruct (perform_panel app action) as [[Hsame _]|(app0 & -> & <-)].
  - unfold panel in Hsame. congruence.
  - reflexivity.
Qed.

Lemma perform_readable app action :
  plain_currency (currency_symbol app) →
  cart app = [] ∨ readable app →
  cart (perform app action) = [] ∨ readable (perform app action).
Proof.
  intros Hplain Hr.
  destruct (perform_panel app action) as [[Hsame Hcart]|(app0 & -> & Hcur)].
  - destruct Hr as [Hempty|Hr]; [left; congruence | right].
    by apply (readable_panel app).
  - right. apply update_totals_is_readable. by rewrite Hcur.
Qed.

Lemma readable_checkout app events :
  cart app = [] ∨ readable app → (checkout app events).2 ≠ TotalsUnreadable.
Proof.
  unfold checkout, process_payment.
  intros [->|([total Ht] & [subtotal Hs] & [discount Hd] & [tax Hx])]; [discriminate|].
  rewrite Ht, Hs, Hd, Hx.
  destruct (cart app); [discriminate|].
  destruct (payment_dialog total events) as [[paid method]|]; [|discriminate].
  unfold complete_sale.
  destruct (save_sale _ _ _ _ _ _ _ _ _ _ _) as [[[e|[sid rn]] db'] w']; discriminate.
Qed.

(** X13: with a currency symbol that does not start like a number, no
    session of the actions of [Action] (adding to the cart, editing,
    removing and clearing from the main window and the cart window, typing
    a discount, the 5% button, a new sale, checkouts, stock updates) leads
    to a checkout that fails to read the totals back from the panel, so
    that the [float(...)] of [process_payment] does not raise, provided the
    session starts with an empty cart, as the application does, or with
    totals that can be read.  None of these actions changes the currency
    symbol.  The settings dialog, which is not among them, does, and leaves
    the panel as it is: see [changed_currency_is_not_read] below. *)
Theorem session_totals_stay_readable actions : ∀ app events,
  plain_currency (currency_symbol app) →
  cart app = [] ∨ readable app →
  (checkout (run app actions) events).2 ≠ TotalsUnreadable.
Proof.
  induction actions as [|action rest IH]; intros app events Hplain Hr.
  - by apply readable_checkout.
  - apply (IH (perform app action)).
    + by rewrite perform_currency.
    + by apply perform_readable.
Qed.

Lemma session_totals_stay_readable_witness :
  (checkout (run (starting_app (shop 3 40)) a_session)
     [PressProcess (of_Z 10) "Cash"]).2 ≠ TotalsUnreadable.
Proof.
  apply session_totals_stay_readable.
  - exists "P"%char, "KR". split; [reflexivity|].
    intros [[d Hd]|Hin]; [discriminate Hd|].
    repeat (apply elem_of_cons in Hin as [Hin|Hin]; [discriminate Hin|]).
    by apply elem_of_nil in Hin.
  - left. reflexivity.
Defined.

(** The settings dialog is another matter:
    [SettingsDialog.save_settings] puts the new symbol into
    [parent.settings['currency_symbol']] and does not refresh the panel.
    With water in the cart and the symbol changed from "PKR" to "$", the
    panel still shows "PKR1.50" and the checkout cannot read it. *)
Example changed_currency_is_not_read :
  let app := run (starting_app (shop 3 40)) [AddToCart (water_product 3)] in
  total_var app = "PKR1.50" ∧
  (checkout app [PressProcess (of_Z 10) "Cash"]).2
  = SaleCompleted 1 "R17000000001234" ∧
  (checkout (set_currency app "$") [PressProcess (of_Z 10) "Cash"]).2
  = TotalsUnreadable.
Proof. vm_compute. auto. Qed.

(** X14: the discount field has no callback: a discount typed changes
    nothing of a checkout made before the cart is next refreshed.  The
    checkout ends the same way, with the same database and the same cart, as
    if nothing had been typed: it charges the totals the panel shows. *)
Theorem typed_discount_waits_for_refresh app text events :
  (checkout (type_discount app text) events).2 = (checkout app events).2 ∧
  database (checkout (type_discount app text) events).1
  = database (checkout app events).1 ∧
  cart (checkout (type_discount app text) events).1
  = cart (checkout app events).1.
Proof.
  unfold checkout, process_payment, shown_total, shown_subtotal, shown_discount,
    shown_tax. cbn [type_discount cart currency_symbol total_var subtotal_var
                    discount_amount_var tax_var].
  destruct (cart app) as [|first rest] eqn:Hcart; [done|].
  destruct (float_of_string (remove_all (currency_symbol app) (total_var app)))
    as [total|]; [|done].
  destruct (float_of_string (remove_all (currency_symbol app) (subtotal_var app)))
    as [subtotal|]; [|done].
  destruct (float_of_string
              (remove_all ("-" +:+ currency_symbol app) (discount_amount_var app)))
    as [discount|]; [|done].
  destruct (float_of_string (remove_all (currency_symbol app) (tax_var app)))
    as [tax|]; [|done].
  destruct (payment_dialog total events) as [[paid method]|]; [|done].
  unfold complete_sale. cbn [type_discount cart world database cashier_setting].
  destruct (save_sale _ _ _ _ _ _ _ _ _ _ _) as [[[e|[sid rn]] db'] w']; done.
Qed.

(** ** The settings *)

(** X15: [init_db], which every start of the application runs, writes
    the default settings over whatever the settings table holds; the other
    keys of the table stay.  [load_settings] after it gives the defaults:
    tax 0.0, currency "PKR", cashier "Admin" and so on, with [tax_percent]
    0. *)
Theorem settings_reset_at_startup (table : gmap string string) :
  let table' := DatabaseManager.init_db table in
  (∀ key value, (key, value) ∈ DatabaseManager.default_settings →
                get_setting table' key = Some value) ∧
  (∀ key, key ∉ DatabaseManager.default_settings.*1 →
          get_setting table' key = get_setting table key) ∧
  ∃ settings,
    load_settings table' = Some (settings, zero) ∧
    ∀ key value, (key, value) ∈ DatabaseManager.default_settings →
                 settings !! key = Some value.
Proof.
  cbv zeta.
  assert (Hdefaults : ∀ key value, (key, value) ∈ DatabaseManager.default_settings →
            get_setting (DatabaseManager.init_db table) key = Some value).
  { intros key value Hin. unfold get_setting, DatabaseManager.init_db,
      DatabaseManager.default_settings, DatabaseManager.set_setting in *. simpl.
    repeat (apply elem_of_cons in Hin as [[= -> ->]|Hin];
            [by simplify_map_eq|]).
    by apply elem_of_nil in Hin. }
  split; [exact Hdefaults|]. split.
  - intros key Hkey. unfold get_setting, DatabaseManager.init_db,
      DatabaseManager.default_settings, DatabaseManager.set_setting in *. simpl in *.
    repeat (apply not_elem_of_cons in Hkey as [? Hkey]).
    by simplify_map_eq.
  - unfold load_settings, settings_keys. simpl.
    rewrite (Hdefaults "tax_percent" "0.0"), (Hdefaults "currency_symbol" "PKR"),
      (Hdefaults "receipt_footer" "Thank you for your business!"),
      (Hdefaults "cashier_name" "Admin"), (Hdefaults "theme" "light")
      by (unfold DatabaseManager.default_settings; set_solver).
    cbn [default]. rewrite !lookup_insert_ne by discriminate.
    rewrite lookup_insert. eexists. split; [reflexivity|].
    intros key value Hin. unfold DatabaseManager.default_settings in Hin.
    repeat (apply elem_of_cons in Hin as [[= -> ->]|Hin];
            [by simplify_map_eq|]).
    by apply elem_of_nil in Hin.
Qed.

(** ** The sign of the amounts *)

(** X16: whatever the text of the discount field, [parse_discount] gives
    no discount below zero when the subtotal is not below zero. *)
Theorem parse_discount_not_negative discount_text subtotal :
  ltb subtotal zero = false →
  ltb (parse_discount discount_text subtotal) zero = false.
Proof.
  intros Hsub. unfold parse_discount.
  destruct (String.eqb discount_text ""); [reflexivity|].
  destruct (ends_with_percent discount_text).
  - destruct (float_of_string (drop_last discount_text)) as [percentage|];
      [|reflexivity].
    assert (H100 : ∃ m e, of_Z 100 = S754_finite false m e)
      by (vm_compute; eauto).
    destruct H100 as (m & e & ->).
    destruct (ltb percentage (of_Z 0)) eqn:Hlow; [reflexivity|].
    destruct (ltb (S754_finite false m e) percentage); [reflexivity|].
    cbn [orb]. apply mul_not_negative; [exact Hsub|]. by apply div_not_negative.
  - destruct (float_of_string discount_text) as [amount|]; [|reflexivity].
    destruct (ltb amount (of_Z 0)) eqn:Hlow; [reflexivity | exact Hlow].
Qed.

Lemma parse_discount_not_negative_witness :
  ltb (parse_discount "-3" (of_Z 5)) zero = false ∧
  ltb (parse_discount "10%" (of_Z 5)) zero = false.
Proof.
  split; apply parse_discount_not_negative; reflexivity.
Defined.

(** X17: the subtotal of a cart whose prices and quantities are not below
    zero is not below zero. *)
Theorem cart_subtotal_not_negative lines :
  Forall (λ item, ltb (item_price item) zero = false ∧ 0 ≤ item_qty item) lines →
  ltb (cart_subtotal lines) zero = false.
Proof.
  unfold cart_subtotal.
  assert (Hfold : ∀ acc,
            ltb acc zero = false →
            Forall (λ item, ltb (item_price item) zero = false ∧ 0 ≤ item_qty item)
              lines →
            ltb (fold_left (λ acc item, add acc (line_total item)) lines acc) zero
            = false).
  { induction lines as [|item rest IH]; intros acc Hacc Hall; [exact Hacc|].
    inversion Hall as [|? ? [Hprice Hqty] Hrest]; subst. simpl. apply IH; [|exact Hrest].
    apply add_not_negative; [exact Hacc|]. unfold line_total.
    apply mul_not_negative; [exact Hprice | by apply of_Z_not_negative]. }
  apply Hfold. reflexivity.
Qed.

Lemma cart_subtotal_not_negative_witness :
  ltb (cart_subtotal scenario_a_cart) zero = false.
Proof.
  apply cart_subtotal_not_negative.
  repeat constructor; simpl; lia.
Defined.

(** ** Receipt numbers, one by one *)

Lemma to_uint_not_nil n : N.to_uint n ≠ Decimal.Nil.
Proof.
  intros Hnil. pose proof (DecimalN.Unsigned.of_to n) as Hn. rewrite Hnil in Hn.
  destruct n as [|p]; [discriminate|].
  simpl in Hnil. pose proof (DecimalPos.Unsigned.to_uint_nonnil p). contradiction.
Qed.

Lemma str_N_inj a b : str_N a = str_N b → a = b.
Proof.
  unfold str_N. intros Heq.
  pose proof (NilZero.usu _ (to_uint_not_nil a)) as Ha.
  pose proof (NilZero.usu _ (to_uint_not_nil b)) as Hb.
  rewrite Heq, Hb in Ha. injection Ha as Ha.
  rewrite <- (DecimalN.Unsigned.of_to a), <- (DecimalN.Unsigned.of_to b). by rewrite Ha.
Qed.

Lemma str_Z_inj a b : 0 ≤ a → 0 ≤ b → str_Z a = str_Z b → a = b.
Proof.
  intros Ha Hb. destruct a as [|a|a], b as [|b|b]; try lia; simpl;
    intros Heq; apply str_N_inj in Heq; congruence.
Qed.

(** A draw of [randint(1000, 9999)] is written with four digits. *)
Lemma four_digits r : 1000 ≤ r ≤ 9999 → String.length (str_Z r) = 4%nat.
Proof.
  intros Hr.
  assert (Hall : forallb (λ k, Nat.eqb (String.length (str_Z (1000 + Z.of_nat k))) 4)
                   (seq 0 (Z.to_nat 9000)) = true) by (vm_compute; reflexivity).
  rewrite forallb_forall in Hall.
  specialize (Hall (Z.to_nat (r - 1000))). rewrite Z2Nat.id in Hall by lia.
  replace (1000 + (r - 1000)) with r in Hall by lia.
  apply Nat.eqb_eq, Hall, in_seq. lia.
Qed.

Lemma chars_length s : length (list_ascii_of_string s) = String.length s.
Proof. induction s as [|c s IH]; simpl; [reflexivity | by rewrite IH]. Qed.

Lemma receipt_number_inj t1 r1 t2 r2 :
  0 ≤ t1 → 0 ≤ t2 → 1000 ≤ r1 ≤ 9999 → 1000 ≤ r2 ≤ 9999 →
  make_receipt_number t1 r1 = make_receipt_number t2 r2 →
  t1 = t2 ∧ r1 = r2.
Proof.
  intros Ht1 Ht2 Hr1 Hr2. unfold make_receipt_number.
  intros Heq. apply (f_equal list_ascii_of_string) in Heq.
  rewrite !chars_app in Heq. simpl in Heq. injection Heq as Heq.
  apply app_inj_2 in Heq as [Ht Hr].
  - apply (f_equal string_of_list_ascii) in Ht, Hr.
    rewrite !string_of_list_ascii_of_string in Ht, Hr.
    split; apply str_Z_inj; first [assumption | lia].
  - rewrite !chars_length, !four_digits by assumption. reflexivity.
Qed.

(** X18: two receipt numbers, made at seconds [t1] and [t2] of the clock
    with draws [r1] and [r2] of [randint(1000, 9999)], are the same number
    exactly when the seconds are the same and the draws are the same. *)
Theorem receipt_numbers_differ t1 r1 t2 r2 :
  0 ≤ t1 → 0 ≤ t2 → 1000 ≤ r1 ≤ 9999 → 1000 ≤ r2 ≤ 9999 →
  make_receipt_number t1 r1 = make_receipt_number t2 r2 ↔ t1 = t2 ∧ r1 = r2.
Proof.
  intros Ht1 Ht2 Hr1 Hr2. split.
  - by apply receipt_number_inj.
  - by intros [-> ->].
Qed.

Lemma receipt_numbers_differ_witness :
  make_receipt_number 1700000000 1234 ≠ make_receipt_number 1700000001 1234.
Proof.
  intros Heq. apply (receipt_numbers_differ 1700000000 1234 1700000001 1234) in Heq;
    lia.
Defined.

Lemma write_items_messages sale_id lines : ∀ db message,
  write_items db sale_id lines = inl message →
  message ≠ "UNIQUE constraint failed: sales.receipt_number".
Proof.
  induction lines as [|item rest IH]; intros db message; simpl; [discriminate|].
  unfold insert_sale_item.
  destruct (is_nan (item_price item)); [intros [= <-]; discriminate|].
  destruct (is_nan (mul _ _)); [intros [= <-]; discriminate|].
  destruct (sale_exists db sale_id && _); [apply IH | intros [= <-]; discriminate].
Qed.

(** X19: when the receipt numbers in the sales table were all made at
    earlier seconds of the clock, [save_sale] does not fail on the UNIQUE
    constraint of the receipt number. *)
Theorem later_sale_has_free_receipt w db lines subtotal discount tax total paid
    payment_method cashier_name customer_id :
  issued_before (clock w) db →
  1000 ≤ (randint w).1 ≤ 9999 →
  (save_sale w db lines subtotal discount tax total paid payment_method
     cashier_name customer_id).1.1
  ≠ inl (DatabaseError "UNIQUE constraint failed: sales.receipt_number").
Proof.
  intros Hbefore Hdraw.
  assert (Hfree : receipt_taken db
            (make_receipt_number (clock w) (random_source w (random_used w))) = false).
  { apply not_true_iff_false. rewrite receipt_taken_spec.
    intros (s & Heq & Hs)%list_elem_of_fmap.
    unfold issued_before in Hbefore. rewrite Forall_forall in Hbefore.
    destruct (Hbefore _ Hs) as (t0 & r0 & Hr & Ht0 & Hr0). rewrite Hr in Heq.
    apply receipt_number_inj in Heq; [lia | lia | lia | exact Hdraw | exact Hr0]. }
  unfold save_sale. simpl.
  destruct (check_stock _ _) as [e|] eqn:Hcheck.
  - simpl. apply check_stock_first_failure in Hcheck
      as (pre & bad & post & _ & _ & [[_ ->]|(row & _ & _ & ->)]); discriminate.
  - unfold insert_sale. rewrite Hfree.
    destruct (is_nan subtotal); [discriminate|].
    destruct (is_nan tax); [discriminate|].
    destruct (is_nan total); [discriminate|].
    destruct (is_nan paid); [discriminate|].
    destruct (is_nan (sub paid total)); [discriminate|].
    destruct (write_items _ _ _) as [message|db2] eqn:Hw; [|discriminate].
    simpl. intros [= Hm]. by apply write_items_messages in Hw.
Qed.

Lemma later_sale_has_free_receipt_witness :
  (save_sale later_world shop_with_sale [water_line 2] (of_Z 3) zero zero (of_Z 3)
     (of_Z 3) "Cash" "Admin" None).1.1
  ≠ inl (DatabaseError "UNIQUE constraint failed: sales.receipt_number").
Proof.
  apply later_sale_has_free_receipt.
  - repeat constructor. exists 1700000000, 1234. split; [reflexivity | simpl; lia].
  - simpl. lia.
Defined.
